(** * RNA-Fold-arcPlot: the arc-diagram renderer

    A shallow embedding of the two [generate_arc_plot] cells of
    [RNA_Fold_arcPlot.ipynb] (Python 2.7), and the properties of the
    rendering pipeline: score cutoff, range check, window filter, arc
    geometry, colour and priority, draw order, canvas size.

    Conventions of the embedding.
    - Python 2 [int] is [Z]; [/] between two ints is floor division
      ([Z.div]); [/] with a float operand is exact division on [Q].
    - The scores of the column [-log10(Probability)] are rationals: the
      renderer only compares them with the literals 0.09691, 0.52288, 1
      and 2, and comparison of finite floats is comparison of the numbers
      they denote.
    - The dot-plot file is taken as already read: [total_length] is the
      integer of its first line, [prob_df] the rows of the table that
      [pandas.read_csv] returns, in file order.
    - matplotlib is a recorder: every call the function makes to [plt] or
      [ax] is appended to a log, in program order.  What the library does
      with the arguments is outside of the source. *)

From Stdlib Require Import ZArith QArith List String Bool Lia.
From Stdlib Require Import Sorting.Sorted Sorting.Permutation.
Import ListNotations.

Local Open Scope Z_scope.

(** ** Data *)

(** One row of the dot-plot table: the columns [i], [j] and
    [-log10(Probability)]. *)
Record PairRecord := mkPair {
  i : Z;
  j : Z;
  log_prob : Q
}.

(** The content of a [.dp] file. *)
Record DpFile := mkDp {
  total_length : Z;
  prob_df : list PairRecord
}.

(** [matplotlib.patches.Arc((center, 0), width, height, theta1, theta2,
    color, lw, alpha)]. *)
Record Arc := mkArc {
  center : Q;
  width : Z;
  height : Z;
  theta1 : Z;
  theta2 : Z;
  color : string;
  lw : Z;
  alpha : Q
}.

(** The calls made to the plotting library. *)
Inductive call : Type :=
| plt_subplots (fig_width : Z) (fig_height : Q)
| ax_set_xlim (lo hi : Q)
| ax_set_ylim (lo hi : Q)
| ax_set_xticks (ticks : list Z)
| ax_add_patch (a : Arc)
| ax_spines_set_visible (side : string) (visible : bool)
| ax_yaxis_set_ticks (ticks : list Z)
| ax_tick_params (axis : string) (labelsize : Z)
| ax_set_aspect (aspect : string)
| plt_savefig (fname : string) (format : string) (bbox_inches : string)
              (dpi : option Z)
| plt_close.

Inductive exn : Type :=
| ValueError (msg : string).

(** ** A state and exception monad over the call log *)

Module PyM.

Definition M (A : Type) : Type := list call -> (exn + A) * list call.

Definition ret {A} (a : A) : M A := fun log => (inr a, log).

Definition bind {A B} (m : M A) (k : A -> M B) : M B :=
  fun log =>
    match m log with
    | (inl e, log') => (inl e, log')
    | (inr a, log') => k a log'
    end.

Definition raise {A} (e : exn) : M A := fun log => (inl e, log).

(** [emit c] records the call [c] and goes on.  A trace of the recording
    cells tells which calls the code makes, in what order and with what
    arguments, when every call returns; whether the library accepts a
    call is left to [WithLibrary.call_library], where a call may raise. *)
Definition emit (c : call) : M unit := fun log => (inr tt, log ++ [c]).

(** [for x in l: body x] *)
Fixpoint for_each {A} (l : list A) (body : A -> M unit) : M unit :=
  match l with
  | [] => ret tt
  | x :: l' => bind (body x) (fun _ => for_each l' body)
  end.

End PyM.

Notation "m ;; k" := (PyM.bind m (fun _ => k))
  (at level 61, right associativity).

(** ** Numbers *)

(** [x < y] on scores. *)
Definition Qltb (x y : Q) : bool := negb (Qle_bool y x).

(** [range(a, b)]. *)
Definition range (a b : Z) : list Z :=
  map (fun k => a + Z.of_nat k) (seq 0 (Z.to_nat (b - a))).

(** [max(s)] of a non-empty sequence of ints. *)
Definition py_max (d : Z) (ds : list Z) : Z := fold_left Z.max ds d.

(** The thresholds, as written in the source. *)
Definition thr_green : Q := 9691 # 100000.    (* 0.09691 *)
Definition thr_blue : Q := 52288 # 100000.    (* 0.52288 *)
Definition thr_yellow : Q := 1.
Definition cutoff : Q := 2.

(** ** The pipeline, step by step *)

(** [prob_df[prob_df['-log10(Probability)'] < 2]] *)
Definition drop_low (df : list PairRecord) : list PairRecord :=
  filter (fun r => Qltb (log_prob r) cutoff) df.

(** [prob_df[(prob_df['j'] <= end_nt) & (prob_df['i'] >= start_nt)]] *)
Definition filtered_prob_df (start_nt end_nt : Z) (df : list PairRecord)
  : list PairRecord :=
  filter (fun r => (j r <=? end_nt) && (i r >=? start_nt)) df.

(** [max(filtered['j'] - filtered['i']) / 2.0], or the int 0 when the
    frame is empty. *)
Definition max_arc_height (filtered : list PairRecord) : Q :=
  match map (fun r => j r - i r) filtered with
  | [] => 0%Q
  | d :: ds => (inject_Z (py_max d ds) / 2)%Q
  end.

(** [start_nt <= i <= end_nt and start_nt <= j <= end_nt] *)
Definition in_window (start_nt end_nt : Z) (r : PairRecord) : bool :=
  ((start_nt <=? i r) && (i r <=? end_nt))
  && ((start_nt <=? j r) && (j r <=? end_nt)).

(** The [if]/[elif] chain on [log_prob]: colour and priority. *)
Definition color_priority (lp : Q) : string * Z :=
  if Qle_bool lp thr_green then ("green"%string, 3)
  else if Qle_bool lp thr_blue then ("#1C73BE"%string, 2)
  else if Qle_bool lp thr_yellow then ("#F7CE12"%string, 1)
  else ("#D3D3D3"%string, 0).

(** The entry appended to [arc_list] for a row in the window. *)
Definition arc_entry (r : PairRecord) : Arc * Z :=
  let center := (inject_Z (i r + j r) / 2)%Q in
  let (color, priority) := color_priority (log_prob r) in
  (mkArc center (j r - i r) (j r - i r) 0 180 color 10 (1 # 2), priority).

(** The loop over [prob_df.iterrows()] that fills [arc_list]. *)
Fixpoint collect_arcs (start_nt end_nt : Z) (df : list PairRecord)
  (arc_list : list (Arc * Z)) : list (Arc * Z) :=
  match df with
  | [] => arc_list
  | row :: df' =>
      if in_window start_nt end_nt row
      then collect_arcs start_nt end_nt df' (arc_list ++ [arc_entry row])
      else collect_arcs start_nt end_nt df' arc_list
  end.

(** [arc_list.sort(key=lambda x: x[1])]: Python's list sort is stable.
    Entries are inserted from the last to the first, each one in front of
    the first entry whose key is not smaller, so entries of equal key keep
    the order they had in [arc_list]. *)
Fixpoint insert_by_key (x : Arc * Z) (l : list (Arc * Z)) : list (Arc * Z) :=
  match l with
  | [] => [x]
  | y :: l' => if snd x <=? snd y then x :: l
               else y :: insert_by_key x l'
  end.

Definition sort_by_key (l : list (Arc * Z)) : list (Arc * Z) :=
  fold_right insert_by_key [] l.

Definition range_error : exn :=
  ValueError
    "end_nt exceeds the total length of the RNA sequence in the dp file".

(** ** Section 2a of the notebook: the PDF cell *)

Module Pdf.

Definition generate_arc_plot (start_nt end_nt : Z) (dp_file : DpFile)
  (name : string) : PyM.M unit :=
  (* Step 1 *)
  let total_length := total_length dp_file in
  let prob_df := prob_df dp_file in
  let prob_df := drop_low prob_df in
  (* Step 2 *)
  if end_nt >? total_length then PyM.raise range_error
  else
    (* Step 3 *)
    let filtered_prob_df := filtered_prob_df start_nt end_nt prob_df in
    let max_arc_height := max_arc_height filtered_prob_df in
    let fig_width := (end_nt - start_nt) / 4 in
    let fig_height := (max_arc_height / 4)%Q in
    let x_range := range start_nt (end_nt + 1) in
    PyM.emit (plt_subplots fig_width fig_height) ;;
    PyM.emit (ax_set_xlim (inject_Z start_nt - (1 # 2))%Q
                          (inject_Z end_nt + (1 # 2))%Q) ;;
    PyM.emit (ax_set_ylim 0%Q (max_arc_height + (1 # 2))%Q) ;;
    PyM.emit (ax_set_xticks x_range) ;;
    (* Step 4 *)
    let arc_list := collect_arcs start_nt end_nt prob_df [] in
    (* Step 5 *)
    let arc_list := sort_by_key arc_list in
    (* Step 6 *)
    PyM.for_each arc_list (fun x => PyM.emit (ax_add_patch (fst x))) ;;
    (* Step 7 *)
    PyM.emit (ax_spines_set_visible "top" false) ;;
    PyM.emit (ax_spines_set_visible "right" false) ;;
    PyM.emit (ax_spines_set_visible "left" false) ;;
    PyM.emit (ax_yaxis_set_ticks []) ;;
    PyM.emit (ax_tick_params "x" 4) ;;
    PyM.emit (ax_set_aspect "equal") ;;
    (* Step 8 *)
    PyM.emit (plt_savefig (name ++ ".pdf") "pdf" "tight" (Some 300)) ;;
    PyM.emit plt_close.

End Pdf.

(** ** Section 2a of the notebook, second cell: the SVG cell *)

Module Svg.

Definition generate_arc_plot (start_nt end_nt : Z) (dp_file : DpFile)
  (name : string) : PyM.M unit :=
  (* Step 1 *)
  let total_length := total_length dp_file in
  let prob_df := prob_df dp_file in
  let prob_df := drop_low prob_df in
  (* Step 2 *)
  if end_nt >? total_length then PyM.raise range_error
  else
    (* Step 3 *)
    let filtered_prob_df := filtered_prob_df start_nt end_nt prob_df in
    let max_arc_height := max_arc_height filtered_prob_df in
    let fig_width := (end_nt - start_nt) / 4 in
    let fig_height := (max_arc_height / 4)%Q in
    let x_range := range start_nt (end_nt + 1) in
    PyM.emit (plt_subplots fig_width fig_height) ;;
    PyM.emit (ax_set_xlim (inject_Z start_nt - (1 # 2))%Q
                          (inject_Z end_nt + (1 # 2))%Q) ;;
    PyM.emit (ax_set_ylim 0%Q (max_arc_height + (1 # 2))%Q) ;;
    PyM.emit (ax_set_xticks x_range) ;;
    (* Step 4 *)
    let arc_list := collect_arcs start_nt end_nt prob_df [] in
    (* Step 5 *)
    let arc_list := sort_by_key arc_list in
    (* Step 6 *)
    PyM.for_each arc_list (fun x => PyM.emit (ax_add_patch (fst x))) ;;
    (* Step 7 *)
    PyM.emit (ax_spines_set_visible "top" false) ;;
    PyM.emit (ax_spines_set_visible "right" false) ;;
    PyM.emit (ax_spines_set_visible "left" false) ;;
    PyM.emit (ax_yaxis_set_ticks []) ;;
    PyM.emit (ax_tick_params "x" 4) ;;
    PyM.emit (ax_set_aspect "equal") ;;
    (* Step 8 *)
    PyM.emit (plt_savefig (name ++ ".svg") "svg" "tight" None) ;;
    PyM.emit plt_close.

End Svg.

(** ** Reading the log *)

(** The arcs added to the canvas, in the order of the calls. *)
Fixpoint added_patches (log : list call) : list Arc :=
  match log with
  | [] => []
  | ax_add_patch a :: log' => a :: added_patches log'
  | _ :: log' => added_patches log'
  end.

(** The canvases created: the [figsize] of every [plt.subplots]. *)
Fixpoint canvases (log : list call) : list (Z * Q) :=
  match log with
  | [] => []
  | plt_subplots w h :: log' => (w, h) :: canvases log'
  | _ :: log' => canvases log'
  end.

(** The files written: name and format of every [plt.savefig]. *)
Fixpoint outputs (log : list call) : list (string * string) :=
  match log with
  | [] => []
  | plt_savefig f fmt _ _ :: log' => (f, fmt) :: outputs log'
  | _ :: log' => outputs log'
  end.

Definition is_savefig (c : call) : bool :=
  match c with plt_savefig _ _ _ _ => true | _ => false end.

(** ** The names the specification gives to the four priorities *)

Inductive confidence_band := HIGH | MEDIUM_HIGH | MEDIUM | LOW.

Definition band_of_priority (p : Z) : option confidence_band :=
  if p =? 3 then Some HIGH
  else if p =? 2 then Some MEDIUM_HIGH
  else if p =? 1 then Some MEDIUM
  else if p =? 0 then Some LOW
  else None.

(** The end-to-end table of the specification. *)
Definition scenario : DpFile :=
  mkDp 20 [ mkPair 5 15 (5 # 100); mkPair 6 14 (3 # 10); mkPair 7 13 (9 # 10);
            mkPair 8 12 (15 # 10); mkPair 9 11 (25 # 10) ].

(** The entries of [arc_list] after the sort: what both cells draw. *)
Definition draw_order (start_nt end_nt : Z) (dp_file : DpFile)
  : list (Arc * Z) :=
  sort_by_key (collect_arcs start_nt end_nt (drop_low (prob_df dp_file)) []).

(** The rows that reach [arc_list], in table order. *)
Definition drawn_rows (start_nt end_nt : Z) (dp_file : DpFile)
  : list PairRecord :=
  filter (in_window start_nt end_nt) (drop_low (prob_df dp_file)).

(** The calls of one successful run, by step. *)

(** Step 3: canvas creation, axis limits and ticks. *)
Definition setup_calls (s e : Z) (dp : DpFile) : list call :=
  let h := max_arc_height (filtered_prob_df s e (drop_low (prob_df dp))) in
  [ plt_subplots ((e - s) / 4) (h / 4)%Q;
    ax_set_xlim (inject_Z s - (1 # 2))%Q (inject_Z e + (1 # 2))%Q;
    ax_set_ylim 0%Q (h + (1 # 2))%Q;
    ax_set_xticks (range s (e + 1)) ].

(** Step 6: one [add_patch] per sorted entry. *)
Definition patch_calls (s e : Z) (dp : DpFile) : list call :=
  map (fun x => ax_add_patch (fst x)) (draw_order s e dp).

(** Step 7: appearance. *)
Definition style_calls : list call :=
  [ ax_spines_set_visible "top" false;
    ax_spines_set_visible "right" false;
    ax_spines_set_visible "left" false;
    ax_yaxis_set_ticks [];
    ax_tick_params "x" 4;
    ax_set_aspect "equal" ].

Definition by_priority (x y : Arc * Z) : Prop := snd x <= snd y.

Definition has_priority (p : Z) (x : Arc * Z) : bool := snd x =? p.

(** ** A plotting library that may refuse a call

    The cells above record the calls they make; that is the run against a
    library that accepts every call.  The cells below are the same code
    against an arbitrary library: a call that raises leaves the function
    at once (there is no [try] in the source), a call that returns is
    recorded.  Nothing is assumed about the library; [matplotlib], for
    one, raises [ValueError] for a figure whose size is not positive. *)

(** The answer to a call, given the calls that have returned so far:
    [None] when the call returns, [Some e] when it raises [e]. *)
Definition library : Type := list call -> call -> option exn.

Module WithLibrary.

Definition call_library (lib : library) (c : call) : PyM.M unit :=
  fun log =>
    match lib log c with
    | Some e => (inl e, log)
    | None => (inr tt, log ++ [c])
    end.

Module Pdf.

Definition generate_arc_plot (lib : library) (start_nt end_nt : Z)
  (dp_file : DpFile) (name : string) : PyM.M unit :=
  (* Step 1 *)
  let total_length := total_length dp_file in
  let prob_df := prob_df dp_file in
  let prob_df := drop_low prob_df in
  (* Step 2 *)
  if end_nt >? total_length then PyM.raise range_error
  else
    (* Step 3 *)
    let filtered_prob_df := filtered_prob_df start_nt end_nt prob_df in
    let max_arc_height := max_arc_height filtered_prob_df in
    let fig_width := (end_nt - start_nt) / 4 in
    let fig_height := (max_arc_height / 4)%Q in
    let x_range := range start_nt (end_nt + 1) in
    call_library lib (plt_subplots fig_width fig_height) ;;
    call_library lib (ax_set_xlim (inject_Z start_nt - (1 # 2))%Q
                                  (inject_Z end_nt + (1 # 2))%Q) ;;
    call_library lib (ax_set_ylim 0%Q (max_arc_height + (1 # 2))%Q) ;;
    call_library lib (ax_set_xticks x_range) ;;
    (* Step 4 *)
    let arc_list := collect_arcs start_nt end_nt prob_df [] in
    (* Step 5 *)
    let arc_list := sort_by_key arc_list in
    (* Step 6 *)
    PyM.for_each arc_list
      (fun x => call_library lib (ax_add_patch (fst x))) ;;
    (* Step 7 *)
    call_library lib (ax_spines_set_visible "top" false) ;;
    call_library lib (ax_spines_set_visible "right" false) ;;
    call_library lib (ax_spines_set_visible "left" false) ;;
    call_library lib (ax_yaxis_set_ticks []) ;;
    call_library lib (ax_tick_params "x" 4) ;;
    call_library lib (ax_set_aspect "equal") ;;
    (* Step 8 *)
    call_library lib
      (plt_savefig (name ++ ".pdf") "pdf" "tight" (Some 300)) ;;
    call_library lib plt_close.

End Pdf.

Module Svg.

Definition generate_arc_plot (lib : library) (start_nt end_nt : Z)
  (dp_file : DpFile) (name : string) : PyM.M unit :=
  (* Step 1 *)
  let total_length := total_length dp_file in
  let prob_df := prob_df dp_file in
  let prob_df := drop_low prob_df in
  (* Step 2 *)
  if end_nt >? total_length then PyM.raise range_error
  else
    (* Step 3 *)
    let filtered_prob_df := filtered_prob_df start_nt end_nt prob_df in
    let max_arc_height := max_arc_height filtered_prob_df in
    let fig_width := (end_nt - start_nt) / 4 in
    let fig_height := (max_arc_height / 4)%Q in
    let x_range := range start_nt (end_nt + 1) in
    call_library lib (plt_subplots fig_width fig_height) ;;
    call_library lib (ax_set_xlim (inject_Z start_nt - (1 # 2))%Q
                                  (inject_Z end_nt + (1 # 2))%Q) ;;
    call_library lib (ax_set_ylim 0%Q (max_arc_height + (1 # 2))%Q) ;;
    call_library lib (ax_set_xticks x_range) ;;
    (* Step 4 *)
    let arc_list := collect_arcs start_nt end_nt prob_df [] in
    (* Step 5 *)
    let arc_list := sort_by_key arc_list in
    (* Step 6 *)
    PyM.for_each arc_list
      (fun x => call_library lib (ax_add_patch (fst x))) ;;
    (* Step 7 *)
    call_library lib (ax_spines_set_visible "top" false) ;;
    call_library lib (ax_spines_set_visible "right" false) ;;
    call_library lib (ax_spines_set_visible "left" false) ;;
    call_library lib (ax_yaxis_set_ticks []) ;;
    call_library lib (ax_tick_params "x" 4) ;;
    call_library lib (ax_set_aspect "equal") ;;
    (* Step 8 *)
    call_library lib (plt_savefig (name ++ ".svg") "svg" "tight" None) ;;
    call_library lib plt_close.

End Svg.

End WithLibrary.

(** Making calls one after the other until the library refuses one. *)
Fixpoint perform (lib : library) (cs : list call) (log : list call)
  : (exn + unit) * list call :=
  match cs with
  | [] => (inr tt, log)
  | c :: cs' =>
      match lib log c with
      | Some e => (inl e, log)
      | None => perform lib cs' (log ++ [c])
      end
  end.

(** The calls that follow the arcs in the two cells. *)
Definition pdf_tail (name : string) : list call :=
  style_calls
    ++ [plt_savefig (name ++ ".pdf") "pdf" "tight" (Some 300); plt_close].

Definition svg_tail (name : string) : list call :=
  style_calls ++ [plt_savefig (name ++ ".svg") "svg" "tight" None; plt_close].

(** The library that accepts every call. *)
Definition accepts_all : library := fun _ _ => None.

Definition figure_size_error : exn :=
  ValueError "figure size must be positive finite".

(** A library that refuses to create a figure of negative width or
    height, and accepts every other call. *)
Definition rejects_negative_size : library :=
  fun _ c =>
    match c with
    | plt_subplots w h =>
        if (w <? 0) || Qltb h 0 then Some figure_size_error else None
    | _ => None
    end.

(** A library that refuses, besides, to save a figure whose width or
    height is zero. *)
Definition rejects_flat_figure : library :=
  fun log c =>
    match c with
    | plt_subplots _ _ => rejects_negative_size log c
    | plt_savefig _ _ _ _ =>
        if existsb (fun wh => (fst wh =? 0) || Qeq_bool (snd wh) 0)
             (canvases log)
        then Some figure_size_error
        else None
    | _ => None
    end.

(** ** Reading an arc *)

(** The two points where an arc meets the horizontal axis. *)
Definition left_foot (a : Arc) : Q := (center a - inject_Z (width a) / 2)%Q.
Definition right_foot (a : Arc) : Q := (center a + inject_Z (width a) / 2)%Q.

Definition feet_in_window (s e : Z) (a : Arc) : bool :=
  (Qle_bool (inject_Z s) (left_foot a) && Qle_bool (left_foot a) (inject_Z e))
  && (Qle_bool (inject_Z s) (right_foot a)
      && Qle_bool (right_foot a) (inject_Z e)).

(** The colour that the [if]/[elif] chain pairs with a priority. *)
Definition color_of_priority (p : Z) : string :=
  if p =? 3 then "green"
  else if p =? 2 then "#1C73BE"
  else if p =? 1 then "#F7CE12"
  else "#D3D3D3".

(** Calls on the axes, as opposed to the calls that create, save and
    close a figure. *)
Definition is_ax_call (c : call) : bool :=
  match c with
  | plt_subplots _ _ | plt_savefig _ _ _ _ | plt_close => false
  | _ => true
  end.

(** * Section 1 of the notebook: driving RNAstructure

    The functions of cells 1a and 1b talk to the operating system: the
    environment, the file system, external commands, the standard output.
    Every such operation is recorded in a history, with the answer it got.
    The answers come from an [OS], which may look at the whole history:
    the properties below hold for every [OS], that is whatever the
    environment, the file system and the commands do.

    - [open], [write], [read], [close] and [os.makedirs] may raise, and so
      may [subprocess.call] (command not found); a lookup in [os.environ]
      raises [KeyError] on a missing key.
    - [with open(p, m) as f: body] opens, runs the body, and closes the
      file whether the body raised or not.
    - [for line in f] reads the file and yields its lines, each with its
      newline; the model reads the content at the first iteration.
    - [os.path.join] and [os.pathsep] are the POSIX ones.
    - A command that never returns has no run in this model. *)

From Stdlib Require Import Ascii.

Inductive os_exn : Type :=
| KeyError (key : string)
| OSError (msg : string)
| IOError (msg : string).

(** One operation, with its arguments and its answer. *)
Inductive io : Type :=
| io_expanduser (path : string) (res : string)
| io_environ_set (key value : string)
| io_environ_get (key : string) (res : option string)
| io_exists (path : string) (res : bool)
| io_makedirs (path : string) (res : os_exn + unit)
| io_open (path mode : string) (res : os_exn + unit)
| io_write (path data : string) (res : os_exn + unit)
| io_read (path : string) (res : os_exn + string)
| io_close (path mode : string) (res : os_exn + unit)
| io_call (argv : list string) (res : os_exn + Z)
| io_print (line : string).

(** The answers of the system, given the history so far. *)
Record OS : Type := mkOS {
  os_expanduser : list io -> string -> string;
  os_environ_get : list io -> string -> option string;
  os_exists : list io -> string -> bool;
  os_makedirs : list io -> string -> os_exn + unit;
  os_open : list io -> string -> string -> os_exn + unit;
  os_write : list io -> string -> string -> os_exn + unit;
  os_read : list io -> string -> os_exn + string;
  os_close : list io -> string -> string -> os_exn + unit;
  os_call : list io -> list string -> os_exn + Z
}.

(** ** Strings *)

Definition nl : string := String (Ascii.ascii_of_nat 10) EmptyString.

Definition is_newline (c : Ascii.ascii) : bool :=
  Ascii.eqb c (Ascii.ascii_of_nat 10).

(** [c.upper()] on one byte: the letters a to z. *)
Definition ascii_upper (c : Ascii.ascii) : Ascii.ascii :=
  let n := Ascii.nat_of_ascii c in
  if ((97 <=? n) && (n <=? 122))%nat then Ascii.ascii_of_nat (n - 32) else c.

(** [s.upper()] *)
Fixpoint upper (s : string) : string :=
  match s with
  | EmptyString => EmptyString
  | String c s' => String (ascii_upper c) (upper s')
  end.

(** [s.replace(old, new)] for two strings of one character. *)
Fixpoint replace_char (old new : Ascii.ascii) (s : string) : string :=
  match s with
  | EmptyString => EmptyString
  | String c s' =>
      String (if Ascii.eqb c old then new else c) (replace_char old new s')
  end.

(** The lines that iterating over a file yields: each ends with its
    newline, except the last one when the file does not end with one. *)
Fixpoint lines_of (s : string) : list string :=
  match s with
  | EmptyString => []
  | String c s' =>
      if is_newline c then String c EmptyString :: lines_of s'
      else match lines_of s' with
           | [] => [String c EmptyString]
           | l :: ls => String c l :: ls
           end
  end.

(** ** Paths *)

Definition starts_with_slash (s : string) : bool :=
  match s with
  | String c _ => Ascii.eqb c "/"%char
  | EmptyString => false
  end.

Fixpoint ends_with_slash (s : string) : bool :=
  match s with
  | EmptyString => false
  | String c EmptyString => Ascii.eqb c "/"%char
  | String _ s' => ends_with_slash s'
  end.

(** [os.path.join(a, b)] *)
Definition path_join (a b : string) : string :=
  if starts_with_slash b then b
  else if (a =? "")%string || ends_with_slash a then a ++ b
  else a ++ "/" ++ b.

(** [os.pathsep] *)
Definition pathsep : string := ":".

(** ** The monad of the operations *)

Module OsM.

Definition M (A : Type) : Type := list io -> (os_exn + A) * list io.

Definition ret {A} (a : A) : M A := fun h => (inr a, h).

Definition bind {A B} (m : M A) (k : A -> M B) : M B :=
  fun h =>
    match m h with
    | (inl e, h') => (inl e, h')
    | (inr a, h') => k a h'
    end.

(** [for x in l: body x] *)
Fixpoint for_each {A} (l : list A) (body : A -> M unit) : M unit :=
  match l with
  | [] => ret tt
  | x :: l' => bind (body x) (fun _ => for_each l' body)
  end.

End OsM.

Notation "x <- m ;; k" := (OsM.bind m (fun x => k))
  (at level 61, m at next level, right associativity).

Section Pipeline.

Variable os : OS.

(** *** The operations *)

Definition expanduser (path : string) : OsM.M string :=
  fun h => let r := os_expanduser os h path in
           (inr r, h ++ [io_expanduser path r]).

Definition environ_set (key value : string) : OsM.M unit :=
  fun h => (inr tt, h ++ [io_environ_set key value]).

Definition environ_get (key : string) : OsM.M string :=
  fun h => let r := os_environ_get os h key in
           (match r with
            | Some v => inr v
            | None => inl (KeyError key)
            end, h ++ [io_environ_get key r]).

Definition path_exists (path : string) : OsM.M bool :=
  fun h => let r := os_exists os h path in (inr r, h ++ [io_exists path r]).

Definition makedirs (path : string) : OsM.M unit :=
  fun h => let r := os_makedirs os h path in (r, h ++ [io_makedirs path r]).

Definition fwrite (path data : string) : OsM.M unit :=
  fun h => let r := os_write os h path data in
           (r, h ++ [io_write path data r]).

Definition fread (path : string) : OsM.M string :=
  fun h => let r := os_read os h path in (r, h ++ [io_read path r]).

Definition subprocess_call (argv : list string) : OsM.M Z :=
  fun h => let r := os_call os h argv in (r, h ++ [io_call argv r]).

Definition print (line : string) : OsM.M unit :=
  fun h => (inr tt, h ++ [io_print line]).

(** [with open(path, mode) as f: body] *)
Definition with_open {A} (path mode : string) (body : OsM.M A) : OsM.M A :=
  fun h =>
    let r := os_open os h path mode in
    let h1 := h ++ [io_open path mode r] in
    match r with
    | inl e => (inl e, h1)
    | inr _ =>
        let (res, h2) := body h1 in
        let c := os_close os h2 path mode in
        let h3 := h2 ++ [io_close path mode c] in
        match c with
        | inl e => (inl e, h3)
        | inr _ => (res, h3)
        end
    end.

(** *** Cell 1a *)

Definition predict_rna_structure (rna_sequence rna_name output_dir : string)
  : OsM.M (option string) :=
  datapath <- expanduser "~/RNAstructure/data_tables" ;;
  _ <- environ_set "DATAPATH" datapath ;;
  exe <- expanduser "~/RNAstructure/exe" ;;
  path <- environ_get "PATH" ;;
  _ <- environ_set "PATH" (exe ++ pathsep ++ path) ;;
  let rna_sequence := replace_char "T"%char "U"%char (upper rna_sequence) in
  present <- path_exists output_dir ;;
  _ <- (if negb present then makedirs output_dir else OsM.ret tt) ;;
  let input_file := path_join output_dir (rna_name ++ ".seq") in
  let ct_file := path_join output_dir (rna_name ++ ".ct") in
  let dot_bracket_file := path_join output_dir (rna_name ++ ".dbn") in
  _ <- with_open input_file "w"
         (fwrite input_file (">" ++ rna_name ++ nl ++ rna_sequence ++ nl)) ;;
  fold_result <- subprocess_call ["Fold"; input_file; ct_file]%string ;;
  if negb (fold_result =? 0) then
    _ <- print
           "Error running Fold. Check if RNAstructure is properly installed." ;;
    OsM.ret None
  else
    ct2dot_result <-
      subprocess_call ["ct2dot"; ct_file; "1"; dot_bracket_file]%string ;;
    if negb (ct2dot_result =? 0) then
      _ <- print
        "Error running ct2dot. Check if RNAstructure is properly installed." ;;
      OsM.ret None
    else
      present <- path_exists dot_bracket_file ;;
      if present then
        dot_bracket_content <-
          with_open dot_bracket_file "r" (fread dot_bracket_file) ;;
        OsM.ret (Some dot_bracket_content)
      else
        _ <- print "Dot-bracket file was not created." ;;
        OsM.ret None.

(** *** Cell 1b *)

Definition generate_prob_file (pfs_file prob_file : string) : OsM.M unit :=
  prob_result <-
    subprocess_call ["ProbabilityPlot"; "--text"; pfs_file; prob_file]%string ;;
  if negb (prob_result =? 0) then
    print ("Error running ProbabilityPlot with --text. "
           ++ "Check if RNAstructure is properly installed.")
  else
    print ("Text-based probability plot saved to: " ++ prob_file).

Definition convert_prob_to_dp (prob_file dp_file : string) : OsM.M unit :=
  _ <- with_open prob_file "r"
         (with_open dp_file "w"
            (content <- fread prob_file ;;
             OsM.for_each (lines_of content)
               (fun line => fwrite dp_file line))) ;;
  print ("Converted .prob to .dp format and saved to: " ++ dp_file).

Definition predict_rna_structure_prob
  (rna_sequence rna_name output_dir : string) : OsM.M (option string) :=
  datapath <- expanduser "~/RNAstructure/data_tables" ;;
  _ <- environ_set "DATAPATH" datapath ;;
  exe <- expanduser "~/RNAstructure/exe" ;;
  path <- environ_get "PATH" ;;
  _ <- environ_set "PATH" (exe ++ pathsep ++ path) ;;
  let rna_sequence := replace_char "T"%char "U"%char (upper rna_sequence) in
  present <- path_exists output_dir ;;
  _ <- (if negb present then makedirs output_dir else OsM.ret tt) ;;
  let input_file := path_join output_dir (rna_name ++ ".seq") in
  let ct_file := path_join output_dir (rna_name ++ ".ct") in
  let prob_file := path_join output_dir (rna_name ++ ".pfs") in
  let dp_file := path_join output_dir (rna_name ++ ".dp") in
  let prob_output_file := path_join output_dir (rna_name ++ ".prob") in
  _ <- with_open input_file "w"
         (fwrite input_file (">" ++ rna_name ++ nl ++ rna_sequence ++ nl)) ;;
  fold_result <- subprocess_call ["Fold"; input_file; ct_file]%string ;;
  if negb (fold_result =? 0) then
    _ <- print
           "Error running Fold. Check if RNAstructure is properly installed." ;;
    OsM.ret None
  else
    partition_result <- subprocess_call ["Partition"; input_file; prob_file]%string ;;
    if negb (partition_result =? 0) then
      _ <- print ("Error running Partition. "
                  ++ "Check if RNAstructure is properly installed.") ;;
      OsM.ret None
    else
      _ <- generate_prob_file prob_file prob_output_file ;;
      _ <- convert_prob_to_dp prob_output_file dp_file ;;
      _ <- print ("Dot plot file generated: " ++ dp_file) ;;
      OsM.ret None.

End Pipeline.

(** ** Reading a history *)

(** The commands run, in order. *)
Fixpoint commands (h : list io) : list (list string) :=
  match h with
  | [] => []
  | io_call argv _ :: h' => argv :: commands h'
  | _ :: h' => commands h'
  end.

(** What was written to a file, in order, by the writes that succeeded. *)
Fixpoint written (path : string) (h : list io) : string :=
  match h with
  | [] => ""
  | io_write p data (inr _) :: h' =>
      if (p =? path)%string then data ++ written path h'
      else written path h'
  | _ :: h' => written path h'
  end.

(** The part of a history that precedes the first command. *)
Fixpoint before_calls (h : list io) : list io :=
  match h with
  | [] => []
  | io_call _ _ :: _ => []
  | ev :: h' => ev :: before_calls h'
  end.

(** The lines printed, in order. *)
Fixpoint printed (h : list io) : list string :=
  match h with
  | [] => []
  | io_print line :: h' => line :: printed h'
  | _ :: h' => printed h'
  end.

(** A system on which everything succeeds: [PATH] is set, every path
    exists, every command returns 0, every file holds two lines. *)
Definition os_fine : OS :=
  mkOS (fun _ p => ("/home/u" ++ substring 1 (String.length p) p)%string)
       (fun _ _ => Some "/usr/bin"%string)
       (fun _ _ => true)
       (fun _ _ => inr tt)
       (fun _ _ _ => inr tt)
       (fun _ _ _ => inr tt)
       (fun _ _ => inr ("1 2" ++ nl ++ "3")%string)
       (fun _ _ _ => inr tt)
       (fun _ _ => inr 0).

(** A system on which every command returns 1. *)
Definition os_commands_fail : OS :=
  mkOS (os_expanduser os_fine) (os_environ_get os_fine) (os_exists os_fine)
       (os_makedirs os_fine) (os_open os_fine) (os_write os_fine)
       (os_read os_fine) (os_close os_fine)
       (fun _ _ => inr 1).

(** A system without [PATH] in the environment, and where no file can be
    opened. *)
Definition os_bare : OS :=
  mkOS (os_expanduser os_fine) (fun _ _ => None) (fun _ _ => false)
       (os_makedirs os_fine)
       (fun _ p _ => inl (IOError p))
       (os_write os_fine) (os_read os_fine) (os_close os_fine)
       (os_call os_fine).

(** A system on which [ProbabilityPlot] returns 1 and everything else
    succeeds. *)
Definition os_plot_fails : OS :=
  mkOS (os_expanduser os_fine) (os_environ_get os_fine) (os_exists os_fine)
       (os_makedirs os_fine) (os_open os_fine) (os_write os_fine)
       (os_read os_fine) (os_close os_fine)
       (fun _ argv =>
          match argv with
          | cmd :: _ => if (cmd =? "ProbabilityPlot")%string then inr 1
                        else inr 0
          | [] => inr 0
          end).

(** * Properties *)

(** ** Scores *)

Lemma Qltb_iff (x y : Q) : Qltb x y = true <-> (x < y)%Q.
Proof.
  unfold Qltb. rewrite negb_true_iff. split; intro H.
  - apply Qnot_le_lt. intro L. apply Qle_bool_iff in L. congruence.
  - destruct (Qle_bool y x) eqn:E; [|reflexivity].
    apply Qle_bool_iff in E. exfalso. exact (Qlt_not_le _ _ H E).
Qed.

Lemma Qle_bool_false (x y : Q) : Qle_bool x y = false <-> (y < x)%Q.
Proof.
  split; intro H.
  - apply Qnot_le_lt. intro L. apply Qle_bool_iff in L. congruence.
  - destruct (Qle_bool x y) eqn:E; [|reflexivity].
    apply Qle_bool_iff in E. exfalso. exact (Qlt_not_le _ _ H E).
Qed.

Lemma in_drop_low (r : PairRecord) (df : list PairRecord) :
  In r (drop_low df) <-> In r df /\ (log_prob r < 2)%Q.
Proof.
  unfold drop_low. rewrite filter_In, Qltb_iff. reflexivity.
Qed.

Lemma in_window_iff (s e : Z) (r : PairRecord) :
  in_window s e r = true <-> (s <= i r <= e) /\ (s <= j r <= e).
Proof.
  unfold in_window. rewrite !andb_true_iff, !Z.leb_le. tauto.
Qed.

(** ** The monad and the log *)

Lemma for_each_emit {A} (f : A -> call) (l : list A) (log : list call) :
  PyM.for_each l (fun x => PyM.emit (f x)) log = (inr tt, log ++ map f l).
Proof.
  revert log. induction l as [|x l IH]; intro log; simpl.
  - unfold PyM.ret. now rewrite app_nil_r.
  - unfold PyM.bind, PyM.emit. rewrite IH, <- app_assoc. reflexivity.
Qed.

Lemma bind_emit {A} (c : call) (k : PyM.M A) (log : list call) :
  (PyM.emit c ;; k) log = k (log ++ [c]).
Proof. reflexivity. Qed.

Lemma bind_for_each_emit {A B} (f : A -> call) (l : list A) (k : PyM.M B)
  (log : list call) :
  (PyM.for_each l (fun x => PyM.emit (f x)) ;; k) log = k (log ++ map f l).
Proof. unfold PyM.bind at 1. now rewrite for_each_emit. Qed.

Lemma added_patches_app (l1 l2 : list call) :
  added_patches (l1 ++ l2) = added_patches l1 ++ added_patches l2.
Proof.
  induction l1 as [|c l1 IH]; simpl; [reflexivity|].
  destruct c; simpl; rewrite IH; reflexivity.
Qed.

Lemma canvases_app (l1 l2 : list call) :
  canvases (l1 ++ l2) = canvases l1 ++ canvases l2.
Proof.
  induction l1 as [|c l1 IH]; simpl; [reflexivity|].
  destruct c; simpl; rewrite IH; reflexivity.
Qed.

Lemma outputs_app (l1 l2 : list call) :
  outputs (l1 ++ l2) = outputs l1 ++ outputs l2.
Proof.
  induction l1 as [|c l1 IH]; simpl; [reflexivity|].
  destruct c; simpl; rewrite IH; reflexivity.
Qed.

Lemma added_patches_map {A} (f : A -> Arc) (l : list A) :
  added_patches (map (fun x => ax_add_patch (f x)) l) = map f l.
Proof. induction l; simpl; congruence. Qed.

Lemma canvases_map_patch {A} (f : A -> Arc) (l : list A) :
  canvases (map (fun x => ax_add_patch (f x)) l) = [].
Proof. induction l; simpl; congruence. Qed.

Lemma outputs_map_patch {A} (f : A -> Arc) (l : list A) :
  outputs (map (fun x => ax_add_patch (f x)) l) = [].
Proof. induction l; simpl; congruence. Qed.

(** ** The loop that fills [arc_list] *)

Lemma collect_arcs_filter (s e : Z) (df : list PairRecord)
  (acc : list (Arc * Z)) :
  collect_arcs s e df acc = acc ++ map arc_entry (filter (in_window s e) df).
Proof.
  revert acc. induction df as [|r df IH]; intro acc; simpl.
  - now rewrite app_nil_r.
  - destruct (in_window s e r); rewrite IH; [|reflexivity].
    now rewrite <- app_assoc.
Qed.

Lemma draw_order_rows (s e : Z) (dp : DpFile) :
  draw_order s e dp = sort_by_key (map arc_entry (drawn_rows s e dp)).
Proof. unfold draw_order. now rewrite collect_arcs_filter. Qed.

(** ** The sort *)

Section Sort.

Implicit Types (x y : Arc * Z) (l : list (Arc * Z)).

Lemma insert_by_key_perm x l : Permutation (insert_by_key x l) (x :: l).
Proof.
  induction l as [|y l IH]; simpl; [reflexivity|].
  destruct (snd x <=? snd y); [reflexivity|].
  rewrite IH. apply perm_swap.
Qed.

Lemma sort_by_key_perm l : Permutation (sort_by_key l) l.
Proof.
  induction l as [|x l IH]; simpl; [constructor|].
  rewrite insert_by_key_perm. now constructor.
Qed.

Lemma insert_by_key_sorted x l :
  StronglySorted by_priority l ->
  StronglySorted by_priority (insert_by_key x l).
Proof.
  induction 1 as [|y l Hl IH Hy]; simpl.
  - repeat constructor.
  - destruct (Z.leb_spec (snd x) (snd y)) as [Hxy|Hxy].
    + constructor; [now constructor|].
      constructor; [exact Hxy|].
      eapply Forall_impl; [|exact Hy].
      unfold by_priority. intros z Hz. lia.
    + constructor; [exact IH|].
      eapply Permutation_Forall.
      * symmetry. apply insert_by_key_perm.
      * constructor; [unfold by_priority; lia | exact Hy].
Qed.

Lemma sort_by_key_sorted l : StronglySorted by_priority (sort_by_key l).
Proof.
  induction l as [|x l IH]; simpl; [constructor|].
  now apply insert_by_key_sorted.
Qed.

(** An entry only moves past entries of strictly smaller key. *)
Lemma insert_by_key_stable p x l :
  filter (has_priority p) (insert_by_key x l)
  = filter (has_priority p) (x :: l).
Proof.
  induction l as [|y l IH]; [reflexivity|].
  cbn [insert_by_key].
  destruct (Z.leb_spec (snd x) (snd y)) as [Hxy|Hxy]; [reflexivity|].
  cbn [filter] in *. rewrite IH. unfold has_priority.
  destruct (Z.eqb_spec (snd y) p), (Z.eqb_spec (snd x) p);
    try reflexivity; lia.
Qed.

Lemma sort_by_key_stable p l :
  filter (has_priority p) (sort_by_key l) = filter (has_priority p) l.
Proof.
  induction l as [|x l IH]; [reflexivity|].
  cbn [sort_by_key fold_right]. rewrite insert_by_key_stable.
  cbn [filter]. fold (sort_by_key l). now rewrite IH.
Qed.

(** The order of the result by position. *)
Lemma sorted_nth_error l (n m : nat) x y :
  StronglySorted by_priority l ->
  (n < m)%nat -> nth_error l n = Some x -> nth_error l m = Some y ->
  snd x <= snd y.
Proof.
  intros Hs. revert n m. induction Hs as [|z l Hl IH Hz]; intros n m Hnm Hx Hy.
  - destruct n; discriminate.
  - destruct m as [|m]; [lia|]. cbn in Hy.
    destruct n as [|n]; cbn in Hx.
    + injection Hx as ->. apply nth_error_In in Hy.
      rewrite Forall_forall in Hz. exact (Hz _ Hy).
    + apply (IH n m); [lia|assumption..].
Qed.

(** A sorted list is determined by its entries of each key, in order:
    every stable sort returns the list that [sort_by_key] returns. *)
Lemma has_priority_self x : has_priority (snd x) x = true.
Proof. apply Z.eqb_refl. Qed.

Lemma stable_sorted_unique l1 l2 :
  StronglySorted by_priority l1 -> StronglySorted by_priority l2 ->
  (forall p, filter (has_priority p) l1 = filter (has_priority p) l2) ->
  l1 = l2.
Proof.
  intros H1. revert l2.
  induction H1 as [|x l1 Hs1 IH Hx]; intros l2 H2 Hf.
  - destruct l2 as [|y l2]; [reflexivity|].
    specialize (Hf (snd y)). cbn [filter] in Hf.
    rewrite has_priority_self in Hf. discriminate.
  - assert (Hin : In x l2).
    { apply (filter_In (has_priority (snd x))). rewrite <- Hf.
      apply filter_In. split; [now left | apply has_priority_self]. }
    destruct l2 as [|y l2]; [destruct Hin|].
    inversion H2 as [|? ? Hs2 Hy]; subst.
    assert (Hin' : In y (x :: l1)).
    { apply (filter_In (has_priority (snd y))). rewrite Hf.
      apply filter_In. split; [now left | apply has_priority_self]. }
    rewrite Forall_forall in Hx, Hy.
    assert (Hxy : snd x = snd y).
    { apply Z.le_antisymm.
      - destruct Hin' as [->|Hin']; [lia | exact (Hx _ Hin')].
      - destruct Hin as [->|Hin]; [lia | exact (Hy _ Hin)]. }
    assert (Heq : x = y).
    { specialize (Hf (snd x)). cbn [filter] in Hf.
      rewrite has_priority_self in Hf.
      rewrite Hxy, has_priority_self in Hf. now injection Hf. }
    subst y. f_equal. apply IH; [exact Hs2|].
    intro p. specialize (Hf p). cbn [filter] in Hf.
    destruct (has_priority p x); [now injection Hf | exact Hf].
Qed.

Lemma sort_by_key_unique l l' :
  StronglySorted by_priority l' ->
  (forall p, filter (has_priority p) l' = filter (has_priority p) l) ->
  l' = sort_by_key l.
Proof.
  intros Hs Hf. apply stable_sorted_unique;
    [exact Hs | apply sort_by_key_sorted |].
  intro p. now rewrite Hf, sort_by_key_stable.
Qed.

End Sort.

(** ** What one call of the renderer appends to the log *)

(** Runs a cell whose range check passes: every [emit] is pushed into the
    log, the loop of step 6 becomes a [map]. *)
Ltac run_cell :=
  match goal with
  | |- context [?e >? total_length ?dp] =>
      replace (e >? total_length dp) with false by (symmetry; lia)
  end;
  cbv zeta; rewrite !bind_emit, bind_for_each_emit, !bind_emit;
  unfold PyM.emit, setup_calls, patch_calls, style_calls, draw_order;
  cbv zeta; repeat rewrite <- app_assoc; reflexivity.

Lemma Pdf_run (s e : Z) (dp : DpFile) (name : string) (log : list call) :
  e <= total_length dp ->
  Pdf.generate_arc_plot s e dp name log
  = (inr tt,
     log ++ setup_calls s e dp ++ patch_calls s e dp ++ style_calls
         ++ [plt_savefig (name ++ ".pdf") "pdf" "tight" (Some 300);
             plt_close]).
Proof.
  intro H. unfold Pdf.generate_arc_plot.
  run_cell.
Qed.

Lemma Svg_run (s e : Z) (dp : DpFile) (name : string) (log : list call) :
  e <= total_length dp ->
  Svg.generate_arc_plot s e dp name log
  = (inr tt,
     log ++ setup_calls s e dp ++ patch_calls s e dp ++ style_calls
         ++ [plt_savefig (name ++ ".svg") "svg" "tight" None; plt_close]).
Proof.
  intro H. unfold Svg.generate_arc_plot.
  run_cell.
Qed.

Lemma Pdf_raise (s e : Z) (dp : DpFile) (name : string) (log : list call) :
  e > total_length dp ->
  Pdf.generate_arc_plot s e dp name log = (inl range_error, log).
Proof.
  intro H. unfold Pdf.generate_arc_plot.
  replace (e >? total_length dp) with true by (symmetry; lia).
  reflexivity.
Qed.

Lemma Svg_raise (s e : Z) (dp : DpFile) (name : string) (log : list call) :
  e > total_length dp ->
  Svg.generate_arc_plot s e dp name log = (inl range_error, log).
Proof.
  intro H. unfold Svg.generate_arc_plot.
  replace (e >? total_length dp) with true by (symmetry; lia).
  reflexivity.
Qed.

Lemma added_patches_run (s e : Z) (dp : DpFile) (log tail : list call) :
  added_patches tail = [] ->
  added_patches
    (log ++ setup_calls s e dp ++ patch_calls s e dp ++ style_calls ++ tail)
  = added_patches log ++ map fst (draw_order s e dp).
Proof.
  intro Ht. rewrite !added_patches_app. unfold patch_calls.
  rewrite added_patches_map, Ht. cbn. now rewrite app_nil_r.
Qed.

Lemma canvases_run (s e : Z) (dp : DpFile) (log tail : list call) :
  canvases tail = [] ->
  canvases
    (log ++ setup_calls s e dp ++ patch_calls s e dp ++ style_calls ++ tail)
  = canvases log
    ++ [((e - s) / 4,
         (max_arc_height (filtered_prob_df s e (drop_low (prob_df dp))) / 4)%Q)].
Proof.
  intro Ht. rewrite !canvases_app. unfold patch_calls.
  rewrite canvases_map_patch, Ht. reflexivity.
Qed.

Lemma outputs_run (s e : Z) (dp : DpFile) (log : list call)
  (f fmt bb : string) (dpi : option Z) :
  outputs
    (log ++ setup_calls s e dp ++ patch_calls s e dp ++ style_calls
         ++ [plt_savefig f fmt bb dpi; plt_close])
  = outputs log ++ [(f, fmt)].
Proof.
  rewrite !outputs_app. unfold patch_calls.
  now rewrite outputs_map_patch.
Qed.

(** ** Arcs and rows *)

Lemma arc_entry_geometry (r : PairRecord) :
  center (fst (arc_entry r)) = (inject_Z (i r + j r) / 2)%Q
  /\ width (fst (arc_entry r)) = j r - i r
  /\ height (fst (arc_entry r)) = j r - i r.
Proof.
  unfold arc_entry. destruct (color_priority (log_prob r)). cbn. auto.
Qed.

(** Centre and width of an arc determine the pair. *)
Lemma arc_entry_coords (r r' : PairRecord) :
  fst (arc_entry r) = fst (arc_entry r') -> i r = i r' /\ j r = j r'.
Proof.
  intro H.
  destruct (arc_entry_geometry r) as (Hc & Hw & _).
  destruct (arc_entry_geometry r') as (Hc' & Hw' & _).
  rewrite H in Hc, Hw. rewrite Hc' in Hc. rewrite Hw' in Hw.
  unfold Qdiv, Qmult, Qinv, inject_Z in Hc. cbn in Hc.
  injection Hc as Hc. lia.
Qed.

Lemma in_drawn_rows (s e : Z) (dp : DpFile) (r : PairRecord) :
  In r (drawn_rows s e dp)
  <-> In r (prob_df dp) /\ (log_prob r < 2)%Q
      /\ (s <= i r <= e) /\ (s <= j r <= e).
Proof.
  unfold drawn_rows. rewrite filter_In, in_drop_low, in_window_iff. tauto.
Qed.

Lemma in_draw_order (s e : Z) (dp : DpFile) (a : Arc) :
  In a (map fst (draw_order s e dp))
  <-> exists r, In r (drawn_rows s e dp) /\ a = fst (arc_entry r).
Proof.
  rewrite draw_order_rows. split.
  - intro H. apply in_map_iff in H. destruct H as (x & <- & Hx).
    apply (Permutation_in _ (sort_by_key_perm _)) in Hx.
    apply in_map_iff in Hx. destruct Hx as (r & <- & Hr). eauto.
  - intros (r & Hr & ->). apply in_map.
    apply (Permutation_in _ (Permutation_sym (sort_by_key_perm _))).
    now apply in_map.
Qed.

Lemma drawn_rows_filter (s e : Z) (dp : DpFile) :
  drawn_rows s e dp
  = filter (fun r => Qltb (log_prob r) 2 && in_window s e r) (prob_df dp).
Proof.
  unfold drawn_rows, drop_low, cutoff.
  induction (prob_df dp) as [|r l IH]; [reflexivity|].
  cbn [filter]. destruct (Qltb (log_prob r) 2); cbn [filter andb].
  - destruct (in_window s e r); now rewrite IH.
  - exact IH.
Qed.

(** A window with [start_nt > end_nt] holds no row. *)
Lemma drawn_rows_reversed (s e : Z) (dp : DpFile) :
  s > e -> drawn_rows s e dp = [].
Proof.
  intro H. unfold drawn_rows.
  induction (drop_low (prob_df dp)) as [|r l IH]; [reflexivity|].
  cbn [filter]. rewrite IH.
  destruct (in_window s e r) eqn:E; [|reflexivity].
  apply in_window_iff in E. lia.
Qed.

(** ** The tallest arc *)

Lemma py_max_init (ds : list Z) (d : Z) : d <= py_max d ds.
Proof.
  unfold py_max. revert d. induction ds as [|y ds IH]; intro d; cbn.
  - lia.
  - specialize (IH (Z.max d y)). lia.
Qed.

Lemma py_max_ge (ds : list Z) (d x : Z) :
  In x (d :: ds) -> x <= py_max d ds.
Proof.
  revert d. induction ds as [|y ds IH]; intros d H.
  - destruct H as [->|[]]. apply py_max_init.
  - destruct H as [->|[->|H]].
    + apply py_max_init.
    + pose proof (py_max_init ds (Z.max d x)) as Hm.
      unfold py_max in *. cbn [fold_left]. lia.
    + unfold py_max in *. cbn [fold_left]. apply IH. now right.
Qed.

Lemma py_max_in (ds : list Z) (d : Z) : In (py_max d ds) (d :: ds).
Proof.
  unfold py_max. revert d. induction ds as [|y ds IH]; intro d.
  - now left.
  - cbn [fold_left]. destruct (IH (Z.max d y)) as [H|H].
    + rewrite <- H. destruct (Z.max_spec d y) as [[_ ->]|[_ ->]].
      * right. now left.
      * now left.
    + right. now right.
Qed.

(** On rows with [i <= j] the frame of step 3 holds the rows of step 4. *)
Lemma filtered_prob_df_drawn_rows (s e : Z) (dp : DpFile) :
  (forall r, In r (prob_df dp) -> i r <= j r) ->
  filtered_prob_df s e (drop_low (prob_df dp)) = drawn_rows s e dp.
Proof.
  intro Hij. unfold filtered_prob_df, drawn_rows.
  apply filter_ext_in. intros r Hr.
  apply in_drop_low in Hr. destruct Hr as [Hr _]. specialize (Hij r Hr).
  unfold in_window.
  destruct (Z.leb_spec (j r) e), (Z.geb_spec (i r) s),
           (Z.leb_spec s (i r)), (Z.leb_spec (i r) e),
           (Z.leb_spec s (j r)); cbn; try reflexivity; lia.
Qed.

Lemma max_arc_height_spec (rows : list PairRecord) :
  (rows = [] /\ max_arc_height rows = 0%Q)
  \/ (exists r, In r rows
                /\ max_arc_height rows = (inject_Z (j r - i r) / 2)%Q
                /\ forall r', In r' rows -> j r' - i r' <= j r - i r).
Proof.
  destruct rows as [|r0 rows]; [left; split; reflexivity|right].
  unfold max_arc_height. cbn [map].
  set (d := j r0 - i r0). set (ds := map (fun r => j r - i r) rows).
  pose proof (py_max_in ds d) as Hin.
  change (d :: ds) with (map (fun r => j r - i r) (r0 :: rows)) in Hin.
  apply in_map_iff in Hin. destruct Hin as (r & Hr & Hin).
  exists r. split; [exact Hin|]. split.
  - now rewrite <- Hr.
  - intros r' Hr'. rewrite Hr. apply py_max_ge.
    change (d :: ds) with (map (fun r => j r - i r) (r0 :: rows)).
    apply in_map_iff. eauto.
Qed.

(** ** The cutoff *)

Lemma drop_low_remove (before after : list PairRecord) (r : PairRecord) :
  (2 <= log_prob r)%Q ->
  drop_low (before ++ r :: after) = drop_low (before ++ after).
Proof.
  intro H. unfold drop_low. rewrite !filter_app. cbn [filter].
  replace (Qltb (log_prob r) cutoff) with false; [reflexivity|].
  symmetry. unfold Qltb. apply negb_false_iff. now apply Qle_bool_iff.
Qed.

(** ** Width of the canvas *)

(** [(end_nt - start_nt) / 4] on Python 2 ints: the floor of the quotient. *)
Lemma fig_width_floor (s e : Z) (dp : DpFile) (name : string)
  (log : list call) :
  e <= total_length dp ->
  exists w h,
    canvases (snd (Pdf.generate_arc_plot s e dp name log))
    = canvases log ++ [(w, h)]
    /\ canvases (snd (Svg.generate_arc_plot s e dp name log))
       = canvases log ++ [(w, h)]
    /\ 4 * w <= e - s < 4 * w + 4.
Proof.
  intro H. rewrite (Pdf_run s e dp name log H), (Svg_run s e dp name log H).
  cbn [snd]. rewrite !canvases_run by reflexivity.
  do 2 eexists. do 2 (split; [reflexivity|]).
  pose proof (Z.div_mod (e - s) 4 ltac:(lia)) as Hd.
  pose proof (Z.mod_pos_bound (e - s) 4 ltac:(lia)) as Hm. lia.
Qed.


(** ** Runs against a library that may refuse a call *)

Lemma bind_call_library {A} (lib : library) (c : call) (k : PyM.M A)
  (log : list call) :
  (WithLibrary.call_library lib c ;; k) log
  = match lib log c with
    | Some e => (inl e, log)
    | None => k (log ++ [c])
    end.
Proof.
  unfold PyM.bind, WithLibrary.call_library.
  destruct (lib log c); reflexivity.
Qed.

Lemma perform_app (lib : library) (cs1 cs2 : list call) (log : list call) :
  perform lib (cs1 ++ cs2) log
  = match perform lib cs1 log with
    | (inl e, t) => (inl e, t)
    | (inr _, t) => perform lib cs2 t
    end.
Proof.
  revert log. induction cs1 as [|c cs1 IH]; intro log; cbn.
  - reflexivity.
  - destruct (lib log c); [reflexivity | apply IH].
Qed.

Lemma bind_for_each_library {A B} (lib : library) (f : A -> call)
  (l : list A) (k : PyM.M B) (log : list call) :
  (PyM.for_each l (fun x => WithLibrary.call_library lib (f x)) ;; k) log
  = match perform lib (map f l) log with
    | (inl e, t) => (inl e, t)
    | (inr _, t) => k t
    end.
Proof.
  revert log. induction l as [|x l IH]; intro log.
  - reflexivity.
  - cbn [PyM.for_each map perform].
    specialize (IH (log ++ [f x])).
    unfold PyM.bind in *. unfold WithLibrary.call_library at 1.
    destruct (lib log (f x)); [reflexivity | exact IH].
Qed.

(** The outcome of [perform]: every call was accepted, or the library
    refused one and the calls before it are all that happened. *)
Lemma perform_spec (lib : library) (cs : list call) (log : list call) :
  perform lib cs log = (inr tt, log ++ cs)
  \/ exists done c rest x,
       cs = done ++ c :: rest
       /\ lib (log ++ done) c = Some x
       /\ perform lib cs log = (inl x, log ++ done).
Proof.
  revert log. induction cs as [|c cs IH]; intro log; cbn.
  - left. now rewrite app_nil_r.
  - destruct (lib log c) as [x|] eqn:E.
    + right. exists [], c, cs, x. rewrite app_nil_r. auto.
    + destruct (IH (log ++ [c])) as [H|(done & c' & rest & x & -> & Hl & H)].
      * left. rewrite H, <- app_assoc. reflexivity.
      * right. exists (c :: done), c', rest, x.
        rewrite <- app_assoc in Hl, H. auto.
Qed.

Lemma perform_accepts_all (cs : list call) (log : list call) :
  perform accepts_all cs log = (inr tt, log ++ cs).
Proof.
  revert log. induction cs as [|c cs IH]; intro log; cbn.
  - now rewrite app_nil_r.
  - now rewrite IH, <- app_assoc.
Qed.

Lemma perform_log_grows (lib : library) (cs : list call) (log : list call) :
  exists done, snd (perform lib cs log) = log ++ done.
Proof.
  destruct (perform_spec lib cs log)
    as [Hok|(done & c & rest & y & _ & _ & Hr)].
  - exists cs. now rewrite Hok.
  - exists done. now rewrite Hr.
Qed.

(** Runs a cell against a library: the calls of the recorder, made until
    one is refused. *)
Ltac accept_or_stop :=
  rewrite bind_call_library;
  match goal with
  | |- context [match ?lib ?l ?c with _ => _ end] =>
      destruct (lib l c); [reflexivity|]
  end.

Ltac run_library_cell :=
  match goal with
  | |- context [?e >? total_length ?dp] =>
      replace (e >? total_length dp) with false by (symmetry; lia)
  end;
  cbv zeta; unfold setup_calls; cbv zeta; cbn [perform app];
  do 4 accept_or_stop;
  rewrite bind_for_each_library, perform_app;
  unfold patch_calls, draw_order;
  match goal with
  | |- context [perform ?lib (map ?f ?l) ?log] =>
      destruct (perform lib (map f l) log) as [[?|?] ?]; [reflexivity|]
  end;
  unfold pdf_tail, svg_tail, style_calls; cbn [perform app];
  do 7 accept_or_stop;
  unfold WithLibrary.call_library;
  match goal with
  | |- context [match ?lib ?l ?c with _ => _ end] =>
      destruct (lib l c); reflexivity
  end.

Lemma Pdf_library_run (lib : library) (s e : Z) (dp : DpFile)
  (name : string) (log : list call) :
  e <= total_length dp ->
  WithLibrary.Pdf.generate_arc_plot lib s e dp name log
  = perform lib (setup_calls s e dp ++ patch_calls s e dp ++ pdf_tail name)
      log.
Proof.
  intro H. unfold WithLibrary.Pdf.generate_arc_plot. run_library_cell.
Qed.

Lemma Svg_library_run (lib : library) (s e : Z) (dp : DpFile)
  (name : string) (log : list call) :
  e <= total_length dp ->
  WithLibrary.Svg.generate_arc_plot lib s e dp name log
  = perform lib (setup_calls s e dp ++ patch_calls s e dp ++ svg_tail name)
      log.
Proof.
  intro H. unfold WithLibrary.Svg.generate_arc_plot. run_library_cell.
Qed.

Lemma Pdf_library_raise (lib : library) (s e : Z) (dp : DpFile)
  (name : string) (log : list call) :
  e > total_length dp ->
  WithLibrary.Pdf.generate_arc_plot lib s e dp name log
  = (inl range_error, log).
Proof.
  intro H. unfold WithLibrary.Pdf.generate_arc_plot.
  replace (e >? total_length dp) with true by (symmetry; lia).
  reflexivity.
Qed.

Lemma Svg_library_raise (lib : library) (s e : Z) (dp : DpFile)
  (name : string) (log : list call) :
  e > total_length dp ->
  WithLibrary.Svg.generate_arc_plot lib s e dp name log
  = (inl range_error, log).
Proof.
  intro H. unfold WithLibrary.Svg.generate_arc_plot.
  replace (e >? total_length dp) with true by (symmetry; lia).
  reflexivity.
Qed.

(** The first call that a request within the length offers to the library
    is [plt.subplots]; a refusal ends the run at once. *)
Lemma library_first_call (lib : library) (s e : Z) (dp : DpFile)
  (name : string) :
  e <= total_length dp ->
  let c := plt_subplots ((e - s) / 4)
             (max_arc_height (filtered_prob_df s e (drop_low (prob_df dp)))
              / 4)%Q in
  match lib [] c with
  | Some x =>
      WithLibrary.Pdf.generate_arc_plot lib s e dp name [] = (inl x, [])
      /\ WithLibrary.Svg.generate_arc_plot lib s e dp name [] = (inl x, [])
  | None =>
      exists rest rest',
        snd (WithLibrary.Pdf.generate_arc_plot lib s e dp name [])
        = c :: rest
        /\ snd (WithLibrary.Svg.generate_arc_plot lib s e dp name [])
           = c :: rest'
  end.
Proof.
  intro H. cbv zeta.
  rewrite (Pdf_library_run lib s e dp name [] H),
    (Svg_library_run lib s e dp name [] H).
  unfold setup_calls. cbv zeta.
  set (c := plt_subplots _ _).
  cbn [app].
  assert (Hstep : forall cs, perform lib (c :: cs) []
                             = match lib [] c with
                               | Some x => (inl x, [])
                               | None => perform lib cs [c]
                               end) by reflexivity.
  rewrite !Hstep. clear Hstep.
  destruct (lib [] c) as [x|].
  - split; reflexivity.
  - match goal with
    | |- exists rest rest',
           snd (perform lib ?cs ?l) = _ /\ snd (perform lib ?cs' ?l) = _ =>
        destruct (perform_log_grows lib cs l) as [done ->];
        destruct (perform_log_grows lib cs' l) as [done' ->]
    end.
    exists done, done'. split; reflexivity.
Qed.

(** The recording cells are the cells run against the library that
    accepts every call. *)
Lemma recorder_accepts_all (s e : Z) (dp : DpFile) (name : string)
  (log : list call) :
  WithLibrary.Pdf.generate_arc_plot accepts_all s e dp name log
  = Pdf.generate_arc_plot s e dp name log
  /\ WithLibrary.Svg.generate_arc_plot accepts_all s e dp name log
     = Svg.generate_arc_plot s e dp name log.
Proof.
  destruct (Z_le_gt_dec e (total_length dp)) as [H|H].
  - rewrite (Pdf_library_run _ s e dp name log H),
      (Svg_library_run _ s e dp name log H),
      (Pdf_run s e dp name log H), (Svg_run s e dp name log H),
      !perform_accepts_all.
    unfold pdf_tail, svg_tail. split; reflexivity.
  - rewrite (Pdf_library_raise _ s e dp name log H),
      (Svg_library_raise _ s e dp name log H),
      (Pdf_raise s e dp name log H), (Svg_raise s e dp name log H).
    split; reflexivity.
Qed.

(** An exception that leaves [perform] is an answer of the library. *)
Lemma perform_raises (lib : library) (cs : list call) (log : list call)
  (x : exn) :
  fst (perform lib cs log) = inl x ->
  exists done c,
    snd (perform lib cs log) = log ++ done /\ lib (log ++ done) c = Some x.
Proof.
  intro H.
  destruct (perform_spec lib cs log)
    as [Hok|(done & c & rest & y & _ & Hl & Hr)].
  - rewrite Hok in H. discriminate H.
  - rewrite Hr in H |- *. injection H as ->. exists done, c. auto.
Qed.

(** The arcs added in a run are an initial part of the arcs of the calls;
    all of them when the run returns. *)
Lemma perform_added_patches (lib : library) (cs : list call)
  (log : list call) :
  exists shown later,
    added_patches (snd (perform lib cs log)) = added_patches log ++ shown
    /\ added_patches cs = shown ++ later
    /\ (fst (perform lib cs log) = inr tt -> later = []).
Proof.
  destruct (perform_spec lib cs log)
    as [Hok|(done & c & rest & y & -> & Hl & Hr)].
  - exists (added_patches cs), []. rewrite Hok. cbn [fst snd].
    rewrite added_patches_app, app_nil_r. auto.
  - exists (added_patches done), (added_patches (c :: rest)).
    rewrite Hr. cbn [fst snd]. rewrite !added_patches_app.
    split; [reflexivity|]. split; [reflexivity|].
    intro H. discriminate H.
Qed.

Lemma added_patches_pdf_calls (s e : Z) (dp : DpFile) (name : string) :
  added_patches (setup_calls s e dp ++ patch_calls s e dp ++ pdf_tail name)
  = map fst (draw_order s e dp).
Proof.
  unfold pdf_tail. apply (added_patches_run s e dp []). reflexivity.
Qed.

Lemma added_patches_svg_calls (s e : Z) (dp : DpFile) (name : string) :
  added_patches (setup_calls s e dp ++ patch_calls s e dp ++ svg_tail name)
  = map fst (draw_order s e dp).
Proof.
  unfold svg_tail. apply (added_patches_run s e dp []). reflexivity.
Qed.

(** In a window with [start_nt > end_nt] the frame of step 3 holds only
    rows with [j < i]. *)
Lemma max_arc_height_reversed (s e : Z) (df : list PairRecord) :
  s > e -> (max_arc_height (filtered_prob_df s e df) <= 0)%Q.
Proof.
  intro H.
  destruct (max_arc_height_spec (filtered_prob_df s e df))
    as [[_ ->]|(r & Hr & -> & _)].
  - apply Qle_refl.
  - unfold filtered_prob_df in Hr. apply filter_In in Hr.
    destruct Hr as [_ Hr]. apply andb_true_iff in Hr.
    destruct Hr as [Hj Hi]. apply Z.leb_le in Hj. apply Z.geb_le in Hi.
    unfold Qle, Qdiv, Qmult, Qinv, inject_Z. cbn. lia.
Qed.

(** When a drawn row has [i <= j], the frame of step 3 gives the height
    of the tallest drawn arc. *)
Lemma height_from_drawn_rows (s e : Z) (dp : DpFile) :
  (exists r, In r (drawn_rows s e dp) /\ i r <= j r) ->
  let m := max_arc_height (filtered_prob_df s e (drop_low (prob_df dp))) in
  (exists r, In r (drawn_rows s e dp) /\ m = (inject_Z (j r - i r) / 2)%Q)
  /\ forall r, In r (drawn_rows s e dp) -> (inject_Z (j r - i r) / 2 <= m)%Q.
Proof.
  intros (r0 & Hr0 & Hij0). cbv zeta.
  assert (Hsub : forall r, In r (drawn_rows s e dp) ->
            In r (filtered_prob_df s e (drop_low (prob_df dp)))).
  { intros r Hr. unfold drawn_rows in Hr. apply filter_In in Hr.
    destruct Hr as [Hr Hw]. apply in_window_iff in Hw.
    unfold filtered_prob_df. apply filter_In. split; [exact Hr|].
    apply andb_true_iff. split; [apply Z.leb_le | apply Z.geb_le]; lia. }
  destruct (max_arc_height_spec
              (filtered_prob_df s e (drop_low (prob_df dp))))
    as [[Hnil _]|(r & Hr & -> & Hmax)].
  { apply Hsub in Hr0. rewrite Hnil in Hr0. destruct Hr0. }
  split.
  - exists r. split; [|reflexivity].
    pose proof (Hmax r0 (Hsub r0 Hr0)) as Hge.
    unfold filtered_prob_df in Hr. apply filter_In in Hr.
    destruct Hr as [Hr Hc]. apply andb_true_iff in Hc.
    destruct Hc as [Hj Hi]. apply Z.leb_le in Hj. apply Z.geb_le in Hi.
    unfold drawn_rows. apply filter_In. split; [exact Hr|].
    apply in_window_iff. lia.
  - intros r' Hr'. specialize (Hmax r' (Hsub r' Hr')).
    unfold Qle, Qdiv, Qmult, Qinv, inject_Z. cbn. lia.
Qed.
(** * The properties of the specification *)

(** ** Draw order *)

(** C1.  For every table and every request that passes the range check,
    both cells add the arcs to the canvas in non-decreasing priority: the
    arcs added are the first components of a list [order] that is a
    permutation of the entries built from the table, sorted by priority
    (an entry at a smaller position never has a greater priority than one
    at a larger position), and whose entries of each priority are in the
    order of the table rows (the sort is stable). *)
Theorem arcs_added_in_priority_order (s e : Z) (dp : DpFile) (name : string)
  (log : list call) :
  e <= total_length dp ->
  exists order : list (Arc * Z),
    added_patches (snd (Pdf.generate_arc_plot s e dp name log))
      = added_patches log ++ map fst order
    /\ added_patches (snd (Svg.generate_arc_plot s e dp name log))
      = added_patches log ++ map fst order
    /\ Permutation order (map arc_entry (drawn_rows s e dp))
    /\ StronglySorted by_priority order
    /\ (forall (n m : nat) x y,
          (n < m)%nat -> nth_error order n = Some x ->
          nth_error order m = Some y -> snd x <= snd y)
    /\ (forall p,
          filter (has_priority p) order
          = filter (has_priority p) (map arc_entry (drawn_rows s e dp))).
Proof.
  intro H. exists (draw_order s e dp).
  rewrite (Pdf_run s e dp name log H), (Svg_run s e dp name log H).
  cbn [snd]. rewrite !added_patches_run by reflexivity.
  rewrite draw_order_rows.
  repeat split.
  - apply sort_by_key_perm.
  - apply sort_by_key_sorted.
  - intros n m x y. apply sorted_nth_error, sort_by_key_sorted.
  - intro p. apply sort_by_key_stable.
Qed.

Lemma arcs_added_in_priority_order_witness :
  exists order : list (Arc * Z),
    added_patches (snd (Pdf.generate_arc_plot 1 20 scenario "test/AA" []))
      = map fst order
    /\ StronglySorted by_priority order.
Proof.
  destruct (arcs_added_in_priority_order 1 20 scenario "test/AA" [])
    as (order & Hp & _ & _ & Hs & _).
  - cbn. lia.
  - exists order. split; [exact Hp | exact Hs].
Defined.

(** ** The range check *)

(** C6.  When [end_nt] is greater than the length read from the first
    line of the file, both cells raise the [ValueError] of step 2 and the
    log is left as it was: no canvas is created and nothing is saved. *)
Theorem end_beyond_sequence_fails (s e : Z) (dp : DpFile) (name : string)
  (log : list call) :
  e > total_length dp ->
  Pdf.generate_arc_plot s e dp name log = (inl range_error, log)
  /\ Svg.generate_arc_plot s e dp name log = (inl range_error, log)
  /\ canvases (snd (Pdf.generate_arc_plot s e dp name log)) = canvases log
  /\ outputs (snd (Pdf.generate_arc_plot s e dp name log)) = outputs log
  /\ canvases (snd (Svg.generate_arc_plot s e dp name log)) = canvases log
  /\ outputs (snd (Svg.generate_arc_plot s e dp name log)) = outputs log.
Proof.
  intro H.
  rewrite (Pdf_raise s e dp name log H), (Svg_raise s e dp name log H).
  repeat split.
Qed.

Lemma end_beyond_sequence_fails_witness :
  Pdf.generate_arc_plot 10 60 (mkDp 50 [mkPair 12 18 (1 # 10)]) "out" []
  = (inl range_error, []).
Proof.
  apply (end_beyond_sequence_fails 10 60 (mkDp 50 [mkPair 12 18 (1 # 10)])
           "out" []).
  cbn. lia.
Defined.

(** ** Canvas width *)

(** C7.  The width passed to [plt.subplots] is [(end_nt - start_nt) / 4]
    between two Python 2 ints, the floor of the quotient: on the
    notebook's own request [(1, 20)] both cells create a canvas of width
    4, not 19/4. *)
Theorem fig_width_is_floor_division :
  map fst (canvases (snd (Pdf.generate_arc_plot 1 20 scenario "test/AA" [])))
    = [4]
  /\ map fst
       (canvases (snd (Svg.generate_arc_plot 1 20 scenario "test/AA" [])))
     = [4]
  /\ ~ (inject_Z 4 == inject_Z (20 - 1) / 4)%Q.
Proof.
  repeat split; try (vm_compute; reflexivity).
  intro H. vm_compute in H. discriminate.
Qed.

(** ** The end-to-end scenario *)

(** C8.  On the table of length 20 with rows (5,15,0.05), (6,14,0.3),
    (7,13,0.9), (8,12,1.5), (9,11,2.5) and the request (1, 20): the row of
    score 2.5 is removed by the cutoff, four arcs are built, of priorities
    3, 2, 1, 0 (HIGH, MEDIUM_HIGH, MEDIUM, LOW) in table order, and they
    are added to the canvas in the order LOW, MEDIUM, MEDIUM_HIGH, HIGH. *)
Theorem end_to_end_scenario :
  let arc_list := collect_arcs 1 20 (drop_low (prob_df scenario)) [] in
  let pdf := Pdf.generate_arc_plot 1 20 scenario "test/AA" [] in
  let svg := Svg.generate_arc_plot 1 20 scenario "test/AA" [] in
  drop_low (prob_df scenario)
    = [ mkPair 5 15 (5 # 100); mkPair 6 14 (3 # 10); mkPair 7 13 (9 # 10);
        mkPair 8 12 (15 # 10) ]
  /\ List.length arc_list = 4%nat
  /\ map (fun x => band_of_priority (snd x)) arc_list
     = [Some HIGH; Some MEDIUM_HIGH; Some MEDIUM; Some LOW]
  /\ map (fun x => (width (fst x), color (fst x))) arc_list
     = [(10, "green"); (8, "#1C73BE"); (6, "#F7CE12"); (4, "#D3D3D3")]%string
  /\ fst pdf = inr tt /\ fst svg = inr tt
  /\ added_patches (snd pdf) = map fst (sort_by_key arc_list)
  /\ added_patches (snd svg) = map fst (sort_by_key arc_list)
  /\ map (fun x => band_of_priority (snd x)) (sort_by_key arc_list)
     = [Some LOW; Some MEDIUM; Some MEDIUM_HIGH; Some HIGH]
  /\ map (fun a => (width a, color a)) (added_patches (snd pdf))
     = [(4, "#D3D3D3"); (6, "#F7CE12"); (8, "#1C73BE"); (10, "green")]%string.
Proof.
  cbv zeta. repeat split; vm_compute; reflexivity.
Qed.

(** ** The two cells *)

(** C9.  The PDF cell and the SVG cell make the same calls with the same
    arguments: either both raise the range error and leave the log alone,
    or both append the same [content] (canvas size, axis limits, ticks,
    the arcs in the same order, appearance), which holds no [savefig], and
    then differ in the arguments of [savefig] only: file name suffix,
    format, and the [dpi] that only the PDF cell passes. *)
Theorem pdf_svg_same_content (s e : Z) (dp : DpFile) (name : string)
  (log : list call) :
  (e > total_length dp
   /\ Pdf.generate_arc_plot s e dp name log = (inl range_error, log)
   /\ Svg.generate_arc_plot s e dp name log = (inl range_error, log))
  \/
  (e <= total_length dp
   /\ exists content : list call,
        forallb (fun c => negb (is_savefig c)) content = true
        /\ added_patches content = map fst (draw_order s e dp)
        /\ Pdf.generate_arc_plot s e dp name log
           = (inr tt,
              log ++ content
                  ++ [plt_savefig (name ++ ".pdf") "pdf" "tight" (Some 300);
                      plt_close])
        /\ Svg.generate_arc_plot s e dp name log
           = (inr tt,
              log ++ content
                  ++ [plt_savefig (name ++ ".svg") "svg" "tight" None;
                      plt_close])).
Proof.
  destruct (Z_le_gt_dec e (total_length dp)) as [H|H].
  - right. split; [exact H|].
    exists (setup_calls s e dp ++ patch_calls s e dp ++ style_calls).
    repeat split.
    + rewrite !forallb_app.
      replace (forallb _ (patch_calls s e dp)) with true; [reflexivity|].
      symmetry. apply forallb_forall. intros c Hc.
      apply in_map_iff in Hc. destruct Hc as (x & <- & _). reflexivity.
    + rewrite !added_patches_app. unfold patch_calls.
      rewrite added_patches_map. cbn. now rewrite app_nil_r.
    + rewrite (Pdf_run s e dp name log H). now rewrite <- !app_assoc.
    + rewrite (Svg_run s e dp name log H). now rewrite <- !app_assoc.
  - left. split; [exact H|]. split.
    + now apply Pdf_raise.
    + now apply Svg_raise.
Qed.

(** ** Reversed ranges *)

(** C2, as stated, fails.  The request (70, 60) on a table of length 50
    has [start_nt > end_nt]; it fails with the error of the check on
    [end_nt], the one that the well-ordered request (10, 60) gets, not
    with an error about the order of the bounds.  The request (30, 10) is
    not stopped by the renderer: the exception that ends the run is the
    answer of the library to [plt.subplots]. *)
Lemma reversed_range_not_rejected :
  let dp := mkDp 50 [mkPair 12 18 (1 # 10)] in
  70 > 60
  /\ Pdf.generate_arc_plot 70 60 dp "out" [] = (inl range_error, [])
  /\ Pdf.generate_arc_plot 10 60 dp "out" [] = (inl range_error, [])
  /\ 30 > 10
  /\ WithLibrary.Pdf.generate_arc_plot rejects_negative_size 30 10 dp "out" []
     = (inl figure_size_error, [])
  /\ rejects_negative_size [] (plt_subplots ((10 - 30) / 4) (0 / 4)%Q)
     = Some figure_size_error
  /\ figure_size_error <> range_error.
Proof.
  cbv zeta. repeat split; try (vm_compute; reflexivity); try lia.
  discriminate.
Qed.

(** C2, amended.  Neither cell compares [start_nt] with [end_nt], and
    there is no error for the order of the bounds.  For a request with
    [start_nt > end_nt]: when [end_nt] exceeds the length, the run raises
    the error of step 2 before any call to the library; otherwise the
    first call is [plt.subplots] with the negative width
    [(end_nt - start_nt) / 4] and a height that is at most 0.  If the
    library refuses that call, its exception ends the run: no canvas, no
    output.  Whatever the library does, no arc is added, and an exception
    that ends the run is an answer of the library. *)
Theorem reversed_range_unchecked (lib : library) (s e : Z) (dp : DpFile)
  (name : string) (log : list call) :
  s > e ->
  let pdf := WithLibrary.Pdf.generate_arc_plot lib s e dp name log in
  let svg := WithLibrary.Svg.generate_arc_plot lib s e dp name log in
  (e > total_length dp ->
     pdf = (inl range_error, log) /\ svg = (inl range_error, log))
  /\ (e <= total_length dp ->
      exists h : Q,
        (e - s) / 4 < 0 /\ (h <= 0)%Q
        /\ (forall x, lib log (plt_subplots ((e - s) / 4) h) = Some x ->
              pdf = (inl x, log) /\ svg = (inl x, log))
        /\ added_patches (snd pdf) = added_patches log
        /\ added_patches (snd svg) = added_patches log
        /\ (forall x, fst pdf = inl x ->
              exists done c,
                snd pdf = log ++ done /\ lib (log ++ done) c = Some x)
        /\ (forall x, fst svg = inl x ->
              exists done c,
                snd svg = log ++ done /\ lib (log ++ done) c = Some x)).
Proof.
  intro Hse. cbv zeta. split.
  - intro H. split; [now apply Pdf_library_raise | now apply Svg_library_raise].
  - intro H.
    rewrite (Pdf_library_run lib s e dp name log H),
      (Svg_library_run lib s e dp name log H).
    exists (max_arc_height (filtered_prob_df s e (drop_low (prob_df dp))) / 4)%Q.
    split; [apply Z.div_lt_upper_bound; lia|].
    split.
    { pose proof (max_arc_height_reversed s e (drop_low (prob_df dp)) Hse)
        as Hm.
      revert Hm. generalize (max_arc_height
                               (filtered_prob_df s e (drop_low (prob_df dp)))).
      intros [n d]. unfold Qle, Qdiv, Qmult, Qinv. cbn. lia. }
    split.
    { intros x Hx. unfold setup_calls. cbv zeta. cbn [app perform].
      rewrite Hx. split; reflexivity. }
    assert (Hnone : map fst (draw_order s e dp) = []).
    { rewrite draw_order_rows, (drawn_rows_reversed s e dp Hse).
      reflexivity. }
    split; [|split; [|split]].
    + destruct (perform_added_patches lib
                  (setup_calls s e dp ++ patch_calls s e dp ++ pdf_tail name)
                  log) as (shown & later & Hs & Hc & _).
      rewrite added_patches_pdf_calls, Hnone in Hc.
      symmetry in Hc. apply app_eq_nil in Hc. destruct Hc as [-> _].
      now rewrite app_nil_r in Hs.
    + destruct (perform_added_patches lib
                  (setup_calls s e dp ++ patch_calls s e dp ++ svg_tail name)
                  log) as (shown & later & Hs & Hc & _).
      rewrite added_patches_svg_calls, Hnone in Hc.
      symmetry in Hc. apply app_eq_nil in Hc. destruct Hc as [-> _].
      now rewrite app_nil_r in Hs.
    + intros x Hx. now apply perform_raises.
    + intros x Hx. now apply perform_raises.
Qed.

Lemma reversed_range_unchecked_witness :
  WithLibrary.Pdf.generate_arc_plot rejects_negative_size 30 10
    (mkDp 50 [mkPair 12 18 (1 # 10)]) "out" []
  = (inl figure_size_error, []).
Proof.
  destruct (reversed_range_unchecked rejects_negative_size 30 10
              (mkDp 50 [mkPair 12 18 (1 # 10)]) "out" []) as [_ Hin].
  - lia.
  - destruct Hin as (h & _ & Hh & Hstop & _).
    + cbn. lia.
    + apply Hstop. reflexivity.
Defined.

(** ** Arc geometry *)

(** C3, as stated, fails.  On a table of length 21 with the rows (5, 15)
    and (15, 5), the request (1, 21) gives a figure of positive size (5 by
    5/4), which a library that refuses sizes that are not positive
    accepts; the run returns and adds two arcs, and the arc of the row
    (15, 5) has width and height -10, which is neither |5 - 15| nor
    non-negative. *)
Lemma span_not_absolute :
  let dp := mkDp 21 [mkPair 5 15 (5 # 100); mkPair 15 5 (5 # 100)] in
  let run := Pdf.generate_arc_plot 1 21 dp "out" [] in
  WithLibrary.Pdf.generate_arc_plot rejects_flat_figure 1 21 dp "out" []
  = run
  /\ fst run = inr tt
  /\ canvases (snd run) = [(5, 10 # 8)]
  /\ map (fun a => (width a, height a)) (added_patches (snd run))
     = [(10, 10); (-10, -10)]
  /\ -10 <> Z.abs (5 - 15)
  /\ -10 < 0.
Proof.
  cbv zeta. repeat split; try (vm_compute; reflexivity).
  - discriminate.
Qed.

(** C3, amended.  The arcs that a successful call adds are those of the
    rows of score below 2 whose coordinates both lie in the window, and
    the arc of such a row has centre [(i + j) / 2] and width and height
    [j - i], signed: no absolute value is taken.  The span is
    [|j - i|], hence non-negative, when [i <= j]. *)
Theorem arc_geometry (s e : Z) (dp : DpFile) (name : string)
  (log : list call) :
  e <= total_length dp ->
  exists arcs : list Arc,
    added_patches (snd (Pdf.generate_arc_plot s e dp name log))
      = added_patches log ++ arcs
    /\ added_patches (snd (Svg.generate_arc_plot s e dp name log))
      = added_patches log ++ arcs
    /\ (forall r,
          In r (prob_df dp) -> (log_prob r < 2)%Q ->
          s <= i r <= e -> s <= j r <= e ->
          exists a, In a arcs
            /\ center a = (inject_Z (i r + j r) / 2)%Q
            /\ width a = j r - i r /\ height a = j r - i r
            /\ (i r <= j r -> width a = Z.abs (j r - i r) /\ 0 <= width a))
    /\ (forall a,
          In a arcs ->
          exists r, In r (prob_df dp) /\ (log_prob r < 2)%Q
            /\ s <= i r <= e /\ s <= j r <= e
            /\ center a = (inject_Z (i r + j r) / 2)%Q
            /\ width a = j r - i r /\ height a = j r - i r).
Proof.
  intro H. exists (map fst (draw_order s e dp)).
  rewrite (Pdf_run s e dp name log H), (Svg_run s e dp name log H).
  cbn [snd]. rewrite !added_patches_run by reflexivity.
  split; [reflexivity|]. split; [reflexivity|]. split.
  - intros r Hr Hlow Hi Hj. exists (fst (arc_entry r)).
    destruct (arc_entry_geometry r) as (Hc & Hw & Hh).
    split.
    { apply in_draw_order. exists r. split; [|reflexivity].
      apply in_drawn_rows. auto. }
    rewrite Hc, Hw, Hh. repeat split; lia.
  - intros a Ha. apply in_draw_order in Ha. destruct Ha as (r & Hr & ->).
    apply in_drawn_rows in Hr. destruct Hr as (Hr & Hlow & Hi & Hj).
    destruct (arc_entry_geometry r) as (Hc & Hw & Hh).
    exists r. rewrite Hc, Hw, Hh. repeat split; try assumption; lia.
Qed.

Lemma arc_geometry_witness :
  exists arcs : list Arc,
    added_patches (snd (Pdf.generate_arc_plot 1 20 scenario "test/AA" []))
    = arcs
    /\ exists a, In a arcs /\ center a = (inject_Z (5 + 15) / 2)%Q
                 /\ width a = 15 - 5.
Proof.
  destruct (arc_geometry 1 20 scenario "test/AA" [])
    as (arcs & Hp & _ & Hrow & _).
  - cbn. lia.
  - exists arcs. split; [exact Hp|].
    destruct (Hrow (mkPair 5 15 (5 # 100))) as (a & Ha & Hc & Hw & _).
    + cbn. auto.
    + reflexivity.
    + cbn. lia.
    + cbn. lia.
    + exists a. auto.
Defined.

(** ** Canvas height *)

(** C4.  The code departs from the claim on the table of length 20 with
    the single row (16, 10) and the window (5, 15).  The row is not drawn
    (16 is outside of the window), so no arc qualifies; but it passes the
    test [j <= end_nt and i >= start_nt] of step 3, so the tallest arc is
    taken to be -3 and the first call of both cells is [plt.subplots] with
    the figure size (2, -3/4), not with the height 0.  Whatever the
    library, that is the call it is offered first: when it refuses, its
    exception ends the run with nothing drawn and nothing saved, as with a
    library that refuses a negative size. *)
Theorem height_from_row_outside_window :
  let dp := mkDp 20 [mkPair 16 10 (5 # 100)] in
  drawn_rows 5 15 dp = []
  /\ in_window 5 15 (mkPair 16 10 (5 # 100)) = false
  /\ filtered_prob_df 5 15 (drop_low (prob_df dp))
     = [mkPair 16 10 (5 # 100)]
  /\ (max_arc_height (filtered_prob_df 5 15 (drop_low (prob_df dp)))
      == - (3 # 1))%Q
  /\ (exists h : Q,
        (h == - (3 # 4))%Q /\ ~ (h == 0)%Q
        /\ rejects_negative_size [] (plt_subplots 2 h)
           = Some figure_size_error
        /\ forall lib : library,
             match lib [] (plt_subplots 2 h) with
             | Some x =>
                 WithLibrary.Pdf.generate_arc_plot lib 5 15 dp "out" []
                 = (inl x, [])
                 /\ WithLibrary.Svg.generate_arc_plot lib 5 15 dp "out" []
                    = (inl x, [])
             | None =>
                 exists rest rest',
                   snd (WithLibrary.Pdf.generate_arc_plot lib 5 15 dp "out" [])
                   = plt_subplots 2 h :: rest
                   /\ snd (WithLibrary.Svg.generate_arc_plot lib 5 15 dp
                             "out" [])
                      = plt_subplots 2 h :: rest'
             end)
  /\ WithLibrary.Pdf.generate_arc_plot rejects_negative_size 5 15 dp "out" []
     = (inl figure_size_error, [])
  /\ WithLibrary.Svg.generate_arc_plot rejects_negative_size 5 15 dp "out" []
     = (inl figure_size_error, []).
Proof.
  cbv zeta. repeat split; try (vm_compute; reflexivity).
  exists (max_arc_height
            (filtered_prob_df 5 15
               (drop_low (prob_df (mkDp 20 [mkPair 16 10 (5 # 100)])))) / 4)%Q.
  split; [vm_compute; reflexivity|].
  split; [intro H; vm_compute in H; discriminate|].
  split; [vm_compute; reflexivity|].
  intro lib.
  apply (library_first_call lib 5 15 (mkDp 20 [mkPair 16 10 (5 # 100)])
           "out").
  cbn. lia.
Qed.

(** ** Bands *)

(** C5.  The colour and priority of a score: at most 0.09691 (0.09691
    itself included) is green, priority 3 (HIGH); above 0.09691 and at
    most 0.52288 is blue, priority 2 (MEDIUM_HIGH); above 0.52288 and at
    most 1 (1 itself included) is yellow, priority 1 (MEDIUM); above 1 is
    light grey, priority 0 (LOW).  A row of score 2 or more is removed
    before anything else is computed: it is not in the frame the later
    steps read, and both cells behave as on the table without it. *)
Theorem band_thresholds :
  (forall lp, (lp <= 9691 # 100000)%Q ->
     color_priority lp = ("green"%string, 3))
  /\ color_priority (9691 # 100000) = ("green"%string, 3)
  /\ (forall lp, (9691 # 100000 < lp)%Q -> (lp <= 52288 # 100000)%Q ->
        color_priority lp = ("#1C73BE"%string, 2))
  /\ (forall lp, (52288 # 100000 < lp)%Q -> (lp <= 1)%Q ->
        color_priority lp = ("#F7CE12"%string, 1))
  /\ color_priority 1 = ("#F7CE12"%string, 1)
  /\ (forall lp, (1 < lp)%Q -> color_priority lp = ("#D3D3D3"%string, 0))
  /\ (band_of_priority 3 = Some HIGH /\ band_of_priority 2 = Some MEDIUM_HIGH
      /\ band_of_priority 1 = Some MEDIUM /\ band_of_priority 0 = Some LOW)
  /\ (forall r df, (2 <= log_prob r)%Q -> ~ In r (drop_low df))
  /\ (forall s e L before r after name log,
        (2 <= log_prob r)%Q ->
        Pdf.generate_arc_plot s e (mkDp L (before ++ r :: after)) name log
        = Pdf.generate_arc_plot s e (mkDp L (before ++ after)) name log
        /\ Svg.generate_arc_plot s e (mkDp L (before ++ r :: after)) name log
           = Svg.generate_arc_plot s e (mkDp L (before ++ after)) name log).
Proof.
  assert (Hgreen : forall lp, (lp <= thr_green)%Q ->
                     color_priority lp = ("green"%string, 3)).
  { intros lp H. unfold color_priority.
    apply Qle_bool_iff in H. now rewrite H. }
  assert (Hyellow : forall lp, (thr_blue < lp)%Q -> (lp <= thr_yellow)%Q ->
                      color_priority lp = ("#F7CE12"%string, 1)).
  { intros lp H1 H2. unfold color_priority.
    assert (H0 : (thr_green < lp)%Q)
      by (eapply Qlt_trans; [|exact H1]; reflexivity).
    apply Qle_bool_false in H0, H1. apply Qle_bool_iff in H2.
    now rewrite H0, H1, H2. }
  split; [exact Hgreen|].
  split; [apply Hgreen; apply Qle_refl|].
  split.
  { intros lp H1 H2. unfold color_priority.
    apply Qle_bool_false in H1. apply Qle_bool_iff in H2.
    fold thr_green in H1. fold thr_blue in H2. now rewrite H1, H2. }
  split; [exact Hyellow|].
  split; [apply Hyellow; [reflexivity | apply Qle_refl]|].
  split.
  { intros lp H. unfold color_priority.
    assert (H1 : (thr_blue < lp)%Q)
      by (eapply Qlt_trans; [|exact H]; reflexivity).
    assert (H0 : (thr_green < lp)%Q)
      by (eapply Qlt_trans; [|exact H1]; reflexivity).
    apply Qle_bool_false in H0, H1, H. fold thr_yellow in H.
    now rewrite H0, H1, H. }
  split; [repeat split|].
  split.
  { intros r df H Hin. apply in_drop_low in Hin. destruct Hin as [_ Hlt].
    exact (Qlt_not_le _ _ Hlt H). }
  intros s e L before r after name log H.
  unfold Pdf.generate_arc_plot, Svg.generate_arc_plot.
  cbn [prob_df total_length].
  rewrite (drop_low_remove before after r H). split; reflexivity.
Qed.

Lemma band_thresholds_witness :
  color_priority (3 # 10) = ("#1C73BE"%string, 2)
  /\ color_priority (9 # 10) = ("#F7CE12"%string, 1)
  /\ color_priority (100001 # 100000) = ("#D3D3D3"%string, 0)
  /\ color_priority (5 # 100) = ("green"%string, 3)
  /\ ~ In (mkPair 9 11 2) (drop_low (prob_df scenario))
  /\ Pdf.generate_arc_plot 1 20 (mkDp 20 ([] ++ mkPair 9 11 2 :: [])) "out" []
     = Pdf.generate_arc_plot 1 20 (mkDp 20 ([] ++ [])) "out" [].
Proof.
  destruct band_thresholds
    as (Hg & _ & Hb & Hy & _ & Hl & _ & Hdrop & Hsame).
  split; [apply Hb; reflexivity || (cbn; discriminate)|].
  split; [apply Hy; reflexivity || (cbn; discriminate)|].
  split; [apply Hl; reflexivity|].
  split; [apply Hg; cbn; discriminate|].
  split; [apply Hdrop; cbn; discriminate|].
  refine (proj1 (Hsame 1 20 20 [] (mkPair 9 11 2) [] "out"%string [] _)).
  cbn. discriminate.
Defined.

(** ** What is never checked *)

(** C10, as stated, fails: a request with [end_nt] within the length of
    the sequence need not succeed.  With a library that refuses a figure
    of negative size, the reversed window (30, 10) on a table of length
    50, and the window (1, 20) on a table of length 20 whose only row is
    (15, 5), both end with the exception of the library at
    [plt.subplots].  With a library that also refuses to save a figure of
    height zero, the window (16, 20) on a table of length 20 whose only
    row is (5, 15), which holds no row, ends with the exception of the
    library at [plt.savefig]: nothing is drawn and nothing is saved. *)
Lemma rendering_can_fail :
  let dp := mkDp 50 [mkPair 12 18 (1 # 10)] in
  let dp' := mkDp 20 [mkPair 15 5 (5 # 100)] in
  let dp'' := mkDp 20 [mkPair 5 15 (5 # 100)] in
  10 <= total_length dp
  /\ WithLibrary.Pdf.generate_arc_plot rejects_negative_size 30 10 dp "out" []
     = (inl figure_size_error, [])
  /\ WithLibrary.Svg.generate_arc_plot rejects_negative_size 30 10 dp "out" []
     = (inl figure_size_error, [])
  /\ 20 <= total_length dp'
  /\ WithLibrary.Pdf.generate_arc_plot rejects_negative_size 1 20 dp' "out" []
     = (inl figure_size_error, [])
  /\ WithLibrary.Svg.generate_arc_plot rejects_negative_size 1 20 dp' "out" []
     = (inl figure_size_error, [])
  /\ 20 <= total_length dp''
  /\ (let pdf := WithLibrary.Pdf.generate_arc_plot rejects_flat_figure 16 20
                   dp'' "out" [] in
      let svg := WithLibrary.Svg.generate_arc_plot rejects_flat_figure 16 20
                   dp'' "out" [] in
      fst pdf = inl figure_size_error
      /\ fst svg = inl figure_size_error
      /\ canvases (snd pdf) = [(1, (0 / 4)%Q)]
      /\ canvases (snd svg) = [(1, (0 / 4)%Q)]
      /\ added_patches (snd pdf) = [] /\ added_patches (snd svg) = []
      /\ outputs (snd pdf) = [] /\ outputs (snd svg) = []).
Proof.
  cbv zeta. repeat split; try (vm_compute; reflexivity); cbn; lia.
Qed.

(** C10, amended.  For a request with [end_nt] within the length of the
    sequence the renderer raises nothing by itself, whatever [start_nt]
    and the coordinates of the rows: nothing compares them with 1 or with
    the length, and an exception that ends the run is an answer of the
    library to one of the calls.  The arcs of the rows of score below 2
    with both coordinates in the window, and no others, are the arcs to
    add: such a row is among them if and only if both its coordinates are
    in the window; a run adds an initial part of them, and all of them
    when it returns.  The length of the header decides the range check and
    nothing else: any other length that [end_nt] does not exceed gives the
    same run. *)
Theorem bounds_never_checked (lib : library) (s e : Z) (dp : DpFile)
  (name : string) (log : list call) :
  e <= total_length dp ->
  let pdf := WithLibrary.Pdf.generate_arc_plot lib s e dp name log in
  let svg := WithLibrary.Svg.generate_arc_plot lib s e dp name log in
  (forall x, fst pdf = inl x ->
     exists done c, snd pdf = log ++ done /\ lib (log ++ done) c = Some x)
  /\ (forall x, fst svg = inl x ->
        exists done c, snd svg = log ++ done /\ lib (log ++ done) c = Some x)
  /\ (exists arcs : list Arc,
        Permutation arcs
          (map (fun r => fst (arc_entry r))
             (filter (fun r => Qltb (log_prob r) 2 && in_window s e r)
                (prob_df dp)))
        /\ (forall r, In r (prob_df dp) -> (log_prob r < 2)%Q ->
              (In (fst (arc_entry r)) arcs
               <-> (s <= i r <= e) /\ (s <= j r <= e)))
        /\ (exists shown later,
              added_patches (snd pdf) = added_patches log ++ shown
              /\ arcs = shown ++ later
              /\ (fst pdf = inr tt -> later = []))
        /\ (exists shown later,
              added_patches (snd svg) = added_patches log ++ shown
              /\ arcs = shown ++ later
              /\ (fst svg = inr tt -> later = [])))
  /\ (forall L, e <= L ->
        WithLibrary.Pdf.generate_arc_plot lib s e (mkDp L (prob_df dp))
          name log = pdf
        /\ WithLibrary.Svg.generate_arc_plot lib s e (mkDp L (prob_df dp))
             name log = svg).
Proof.
  intro H. cbv zeta.
  rewrite (Pdf_library_run lib s e dp name log H),
    (Svg_library_run lib s e dp name log H).
  split; [intros x Hx; now apply perform_raises|].
  split; [intros x Hx; now apply perform_raises|].
  split.
  - exists (map fst (draw_order s e dp)). split; [|split; [|split]].
    + rewrite draw_order_rows. rewrite (sort_by_key_perm _).
      rewrite map_map, drawn_rows_filter. reflexivity.
    + intros r Hr Hlow. rewrite in_draw_order. split.
      * intros (r' & Hr' & Heq). apply in_drawn_rows in Hr'.
        destruct (arc_entry_coords r r' Heq) as [-> ->]. tauto.
      * intros [Hi Hj]. exists r. split; [|reflexivity].
        apply in_drawn_rows. auto.
    + rewrite <- (added_patches_pdf_calls s e dp name).
      apply perform_added_patches.
    + rewrite <- (added_patches_svg_calls s e dp name).
      apply perform_added_patches.
  - intros L HL. split.
    + now rewrite Pdf_library_run by exact HL.
    + now rewrite Svg_library_run by exact HL.
Qed.

Lemma bounds_never_checked_witness :
  exists arcs shown later : list Arc,
    added_patches
      (snd (WithLibrary.Pdf.generate_arc_plot rejects_negative_size (-3) 10
              (mkDp 10 [mkPair (-2) 3 (1 # 10); mkPair 4 40 (1 # 10);
                        mkPair 0 9 (3 # 10)]) "out" []))
    = shown
    /\ arcs = shown ++ later.
Proof.
  destruct (bounds_never_checked rejects_negative_size (-3) 10
              (mkDp 10 [mkPair (-2) 3 (1 # 10); mkPair 4 40 (1 # 10);
                        mkPair 0 9 (3 # 10)]) "out" [])
    as (_ & _ & (arcs & _ & _ & (shown & later & Hs & Ha & _) & _) & _).
  - cbn. lia.
  - exists arcs, shown, later. split; [exact Hs | exact Ha].
Defined.

(** * Further properties of the renderer *)

(** ** Colour and priority *)

Lemma color_priority_cases (lp : Q) :
  ((lp <= thr_green)%Q /\ color_priority lp = ("green"%string, 3))
  \/ ((thr_green < lp)%Q /\ (lp <= thr_blue)%Q
      /\ color_priority lp = ("#1C73BE"%string, 2))
  \/ ((thr_blue < lp)%Q /\ (lp <= thr_yellow)%Q
      /\ color_priority lp = ("#F7CE12"%string, 1))
  \/ ((thr_yellow < lp)%Q /\ color_priority lp = ("#D3D3D3"%string, 0)).
Proof.
  unfold color_priority.
  destruct (Qle_bool lp thr_green) eqn:E1.
  { left. split; [now apply Qle_bool_iff | reflexivity]. }
  apply Qle_bool_false in E1. right.
  destruct (Qle_bool lp thr_blue) eqn:E2.
  { left. repeat split; [assumption | now apply Qle_bool_iff]. }
  apply Qle_bool_false in E2. right.
  destruct (Qle_bool lp thr_yellow) eqn:E3.
  { left. repeat split; [assumption | now apply Qle_bool_iff]. }
  apply Qle_bool_false in E3. right. split; [assumption | reflexivity].
Qed.

Lemma color_priority_consistent (lp : Q) :
  0 <= snd (color_priority lp) <= 3
  /\ fst (color_priority lp) = color_of_priority (snd (color_priority lp)).
Proof.
  destruct (color_priority_cases lp)
    as [[_ ->]|[(_ & _ & ->)|[(_ & _ & ->)|[_ ->]]]]; cbn; split;
    (lia || reflexivity).
Qed.

(** X1.  A smaller score never gets a smaller priority: the priority is
    monotone in the confidence, and two scores have the same colour
    exactly when they have the same priority. *)
Theorem priority_monotone (lp1 lp2 : Q) :
  (lp1 <= lp2)%Q ->
  snd (color_priority lp2) <= snd (color_priority lp1)
  /\ (fst (color_priority lp1) = fst (color_priority lp2)
      <-> snd (color_priority lp1) = snd (color_priority lp2)).
Proof.
  intro H.
  destruct (color_priority_cases lp1)
    as [[A1 ->]|[(A1 & A2 & ->)|[(A1 & A2 & ->)|[A1 ->]]]];
  destruct (color_priority_cases lp2)
    as [[B1 ->]|[(B1 & B2 & ->)|[(B1 & B2 & ->)|[B1 ->]]]];
  cbn [fst snd];
  try (split; [lia | split; intro; (reflexivity || discriminate)]);
  exfalso;
  match goal with
  | A : (?L < lp1)%Q, B : (lp2 <= ?U)%Q |- _ =>
      apply (Qlt_irrefl lp1);
      apply (Qle_lt_trans _ lp2 _ H);
      apply (Qle_lt_trans _ U _ B);
      apply (Qle_lt_trans _ L); [apply Qle_bool_iff; reflexivity | exact A]
  end.
Qed.

Lemma priority_monotone_witness :
  snd (color_priority (9 # 10)) <= snd (color_priority (3 # 10)).
Proof.
  apply (priority_monotone (3 # 10) (9 # 10)). cbn. discriminate.
Defined.

Lemma arc_entry_consistent (r : PairRecord) :
  0 <= snd (arc_entry r) <= 3
  /\ color (fst (arc_entry r)) = color_of_priority (snd (arc_entry r)).
Proof.
  pose proof (color_priority_consistent (log_prob r)) as H.
  unfold arc_entry. destruct (color_priority (log_prob r)) as [c p].
  exact H.
Qed.

(** A sorted list of keys between 0 and 3 is four blocks. *)
Lemma sorted_keys_blocks (l : list (Arc * Z)) :
  StronglySorted by_priority l ->
  Forall (fun x => 0 <= snd x <= 3) l ->
  exists n0 n1 n2 n3 : nat,
    map snd l = repeat 0 n0 ++ repeat 1 n1 ++ repeat 2 n2 ++ repeat 3 n3.
Proof.
  induction 1 as [|x l Hs IH Hx]; intro Hr.
  - exists 0%nat, 0%nat, 0%nat, 0%nat. reflexivity.
  - inversion Hr as [|? ? Hx03 Hr']; subst.
    destruct (IH Hr') as (n0 & n1 & n2 & n3 & Hm).
    assert (Hlow : forall v, In v (map snd l) -> snd x <= v).
    { intros v Hv. apply in_map_iff in Hv. destruct Hv as (y & <- & Hy).
      rewrite Forall_forall in Hx. exact (Hx y Hy). }
    rewrite Hm in Hlow. cbn [map]. rewrite Hm.
    assert (Hk : snd x = 0 \/ snd x = 1 \/ snd x = 2 \/ snd x = 3) by lia.
    destruct Hk as [Hk|[Hk|[Hk|Hk]]]; rewrite Hk in *.
    + exists (S n0), n1, n2, n3. reflexivity.
    + destruct n0 as [|n0];
        [|specialize (Hlow 0 ltac:(now left)); lia].
      exists 0%nat, (S n1), n2, n3. reflexivity.
    + destruct n0 as [|n0];
        [|specialize (Hlow 0 ltac:(now left)); lia].
      destruct n1 as [|n1];
        [|specialize (Hlow 1 ltac:(now left)); lia].
      exists 0%nat, 0%nat, (S n2), n3. reflexivity.
    + destruct n0 as [|n0];
        [|specialize (Hlow 0 ltac:(now left)); lia].
      destruct n1 as [|n1];
        [|specialize (Hlow 1 ltac:(now left)); lia].
      destruct n2 as [|n2];
        [|specialize (Hlow 2 ltac:(now left)); lia].
      exists 0%nat, 0%nat, 0%nat, (S n3). reflexivity.
Qed.

Lemma draw_order_consistent (s e : Z) (dp : DpFile) :
  Forall (fun x => 0 <= snd x <= 3
                   /\ color (fst x) = color_of_priority (snd x))
    (draw_order s e dp).
Proof.
  rewrite draw_order_rows.
  eapply Permutation_Forall; [symmetry; apply sort_by_key_perm|].
  apply Forall_forall. intros x Hx. apply in_map_iff in Hx.
  destruct Hx as (r & <- & _). apply arc_entry_consistent.
Qed.

(** X2.  In every successful run the colours of the arcs, in the order in
    which they are added, are a block of light grey, then a block of
    yellow, then a block of blue, then a block of green: no arc is added
    after an arc of a more confident colour.  There are as many arcs as
    rows of score below 2 inside the window. *)
Theorem colours_in_draw_order (s e : Z) (dp : DpFile) (name : string)
  (log : list call) :
  e <= total_length dp ->
  exists (arcs : list Arc) (n0 n1 n2 n3 : nat),
    added_patches (snd (Pdf.generate_arc_plot s e dp name log))
      = added_patches log ++ arcs
    /\ added_patches (snd (Svg.generate_arc_plot s e dp name log))
      = added_patches log ++ arcs
    /\ map color arcs
       = (repeat "#D3D3D3"%string n0 ++ repeat "#F7CE12"%string n1
          ++ repeat "#1C73BE"%string n2 ++ repeat "green"%string n3)%list
    /\ (n0 + n1 + n2 + n3)%nat = List.length (drawn_rows s e dp).
Proof.
  intro H.
  pose proof (draw_order_consistent s e dp) as Hc.
  destruct (sorted_keys_blocks (draw_order s e dp))
    as (n0 & n1 & n2 & n3 & Hm).
  { rewrite draw_order_rows. apply sort_by_key_sorted. }
  { eapply Forall_impl; [|exact Hc]. cbn. tauto. }
  exists (map fst (draw_order s e dp)), n0, n1, n2, n3.
  rewrite (Pdf_run s e dp name log H), (Svg_run s e dp name log H).
  cbn [snd]. rewrite !added_patches_run by reflexivity.
  do 2 (split; [reflexivity|]). split.
  - transitivity (map color_of_priority (map snd (draw_order s e dp))).
    + rewrite !map_map. apply map_ext_in. intros x Hx.
      rewrite Forall_forall in Hc. apply (Hc x Hx).
    + rewrite Hm, !map_app, !map_repeat. reflexivity.
  - apply (f_equal (@List.length Z)) in Hm.
    rewrite !length_app, !repeat_length, length_map in Hm.
    rewrite draw_order_rows in Hm.
    rewrite (Permutation_length (sort_by_key_perm _)), length_map in Hm.
    lia.
Qed.

Lemma colours_in_draw_order_witness :
  exists (arcs : list Arc) (n0 n1 n2 n3 : nat),
    added_patches (snd (Pdf.generate_arc_plot 1 20 scenario "test/AA" []))
      = arcs
    /\ map color arcs
       = (repeat "#D3D3D3"%string n0 ++ repeat "#F7CE12"%string n1
          ++ repeat "#1C73BE"%string n2 ++ repeat "green"%string n3)%list.
Proof.
  destruct (colours_in_draw_order 1 20 scenario "test/AA" [])
    as (arcs & n0 & n1 & n2 & n3 & Hp & _ & Hc & _).
  - cbn. lia.
  - exists arcs, n0, n1, n2, n3. split; [exact Hp | exact Hc].
Defined.

(** ** Where the arcs stand *)

Lemma arc_entry_feet (r : PairRecord) :
  (left_foot (fst (arc_entry r)) == inject_Z (i r))%Q
  /\ (right_foot (fst (arc_entry r)) == inject_Z (j r))%Q.
Proof.
  destruct (arc_entry_geometry r) as (Hc & Hw & _).
  unfold left_foot, right_foot. rewrite Hc, Hw.
  unfold Qeq, Qminus, Qplus, Qopp, Qdiv, Qmult, Qinv, inject_Z.
  cbn. split; lia.
Qed.

Lemma arc_entry_shape (r : PairRecord) :
  let a := fst (arc_entry r) in
  theta1 a = 0 /\ theta2 a = 180 /\ lw a = 10 /\ alpha a = 1 # 2
  /\ height a = width a.
Proof.
  unfold arc_entry. destruct (color_priority (log_prob r)). cbn. auto.
Qed.

Lemma added_patches_new (s e : Z) (dp : DpFile) (tail : list call) :
  added_patches tail = [] ->
  added_patches
    (setup_calls s e dp ++ patch_calls s e dp ++ style_calls ++ tail)
  = map fst (draw_order s e dp).
Proof. intro Ht. exact (added_patches_run s e dp [] tail Ht). Qed.

(** X3.  Every arc that a successful run adds spans 0 to 180 degrees,
    has equal width and height, and has its two feet on positions of the
    window: both lie between [start_nt] and [end_nt], hence strictly
    inside the limits [start_nt - 0.5] and [end_nt + 0.5] that the same
    run sets on the horizontal axis.  On a table whose rows all have
    [i <= j] the width and the height are not negative and the left foot
    is not right of the right foot: every arc is an upper half-circle
    standing on the axis.  (The arc of a row with [j < i] has a negative
    width and height.) *)
Theorem arcs_stand_inside_axis (s e : Z) (dp : DpFile) (name : string)
  (log : list call) :
  e <= total_length dp ->
  exists new_pdf new_svg : list call,
    snd (Pdf.generate_arc_plot s e dp name log) = log ++ new_pdf
    /\ snd (Svg.generate_arc_plot s e dp name log) = log ++ new_svg
    /\ forall new, new = new_pdf \/ new = new_svg ->
         In (ax_set_xlim (inject_Z s - (1 # 2))%Q (inject_Z e + (1 # 2))%Q) new
         /\ forall a, In a (added_patches new) ->
              theta1 a = 0 /\ theta2 a = 180 /\ height a = width a
              /\ (inject_Z s <= left_foot a)%Q
              /\ (left_foot a <= inject_Z e)%Q
              /\ (inject_Z s <= right_foot a)%Q
              /\ (right_foot a <= inject_Z e)%Q
              /\ (inject_Z s - (1 # 2) < left_foot a)%Q
              /\ (right_foot a < inject_Z e + (1 # 2))%Q
              /\ ((forall r, In r (prob_df dp) -> i r <= j r) ->
                  0 <= width a /\ 0 <= height a
                  /\ (left_foot a <= right_foot a)%Q)
              /\ (exists r, In r (prob_df dp)
                            /\ width a = j r - i r
                            /\ (left_foot a == inject_Z (i r))%Q
                            /\ (right_foot a == inject_Z (j r))%Q).
Proof.
  intro H.
  rewrite (Pdf_run s e dp name log H), (Svg_run s e dp name log H).
  do 2 eexists. do 2 (split; [reflexivity|]).
  assert (Harc : forall a, In a (map fst (draw_order s e dp)) ->
            theta1 a = 0 /\ theta2 a = 180 /\ height a = width a
            /\ (inject_Z s <= left_foot a)%Q
            /\ (left_foot a <= inject_Z e)%Q
            /\ (inject_Z s <= right_foot a)%Q
            /\ (right_foot a <= inject_Z e)%Q
            /\ (inject_Z s - (1 # 2) < left_foot a)%Q
            /\ (right_foot a < inject_Z e + (1 # 2))%Q
            /\ ((forall r, In r (prob_df dp) -> i r <= j r) ->
                0 <= width a /\ 0 <= height a
                /\ (left_foot a <= right_foot a)%Q)
            /\ (exists r, In r (prob_df dp)
                          /\ width a = j r - i r
                          /\ (left_foot a == inject_Z (i r))%Q
                          /\ (right_foot a == inject_Z (j r))%Q)).
  { intros a Ha. apply in_draw_order in Ha. destruct Ha as (r & Hr & ->).
    apply in_drawn_rows in Hr. destruct Hr as (Hin & _ & Hi & Hj).
    destruct (arc_entry_shape r) as (H1 & H2 & _ & _ & Hh).
    destruct (arc_entry_geometry r) as (_ & Hw & _).
    destruct (arc_entry_feet r) as (Hl & Hrt).
    do 3 (split; [assumption|]).
    rewrite Hl, Hrt, <- !Zle_Qle.
    do 4 (split; [lia|]).
    split; [unfold Qlt, Qminus, Qplus, Qopp, inject_Z; cbn; lia|].
    split; [unfold Qlt, Qminus, Qplus, Qopp, inject_Z; cbn; lia|].
    split.
    - intro Hall. specialize (Hall r Hin). rewrite Hh, Hw. lia.
    - exists r. rewrite Hw.
      repeat split; first [assumption | reflexivity]. }
  intros new [->| ->]; (split; [cbn; auto|]);
    intros a Ha;
    rewrite added_patches_new in Ha by reflexivity;
    exact (Harc a Ha).
Qed.

Lemma arcs_stand_inside_axis_witness :
  exists new : list call,
    snd (Pdf.generate_arc_plot 1 20 scenario "test/AA" []) = new
    /\ forall a, In a (added_patches new) ->
         (inject_Z 1 <= left_foot a)%Q /\ (right_foot a <= inject_Z 20)%Q
         /\ 0 <= width a.
Proof.
  destruct (arcs_stand_inside_axis 1 20 scenario "test/AA" [])
    as (new & new' & Hp & _ & Hin).
  - cbn. lia.
  - exists new. split; [exact Hp|].
    intros a Ha.
    destruct (Hin new (or_introl eq_refl)) as [_ Hall].
    destruct (Hall a Ha) as (_ & _ & _ & Hl & _ & _ & Hr & _ & _ & Hpos & _).
    split; [assumption|]. split; [assumption|].
    apply Hpos. cbn. intros r Hr'.
    repeat (destruct Hr' as [<-|Hr']; [cbn; lia|]). destruct Hr'.
Defined.

(** ** Size of the canvas *)

Lemma canvases_new (s e : Z) (dp : DpFile) (tail : list call) :
  canvases tail = [] ->
  canvases (setup_calls s e dp ++ patch_calls s e dp ++ style_calls ++ tail)
  = [((e - s) / 4,
      (max_arc_height (filtered_prob_df s e (drop_low (prob_df dp))) / 4)%Q)].
Proof. intro Ht. exact (canvases_run s e dp [] tail Ht). Qed.

(** X4.  On a table whose rows all have [i <= j] and a request with
    [start_nt <= end_nt] within the sequence, the canvas never has a
    negative size and every arc fits under the top of the vertical axis:
    the width is at least 0, the half span [m] that gives the height
    [m / 4] lies between 0 and half the window, the vertical axis is set to
    run from 0 to [m + 0.5], and every added arc has a non-negative width
    and a radius of at most [m]. *)
Theorem canvas_fits_arcs (s e : Z) (dp : DpFile) (name : string)
  (log : list call) :
  e <= total_length dp -> s <= e ->
  (forall r, In r (prob_df dp) -> i r <= j r) ->
  exists (m : Q) (new_pdf new_svg : list call),
    snd (Pdf.generate_arc_plot s e dp name log) = log ++ new_pdf
    /\ snd (Svg.generate_arc_plot s e dp name log) = log ++ new_svg
    /\ 0 <= (e - s) / 4
    /\ (0 <= m)%Q /\ (m <= inject_Z (e - s) / 2)%Q
    /\ forall new, new = new_pdf \/ new = new_svg ->
         canvases new = [((e - s) / 4, (m / 4)%Q)]
         /\ In (ax_set_ylim 0%Q (m + (1 # 2))%Q) new
         /\ forall a, In a (added_patches new) ->
              0 <= width a /\ (inject_Z (width a) / 2 <= m)%Q.
Proof.
  intros H Hse Hij.
  rewrite (Pdf_run s e dp name log H), (Svg_run s e dp name log H).
  exists (max_arc_height (drawn_rows s e dp)). do 2 eexists.
  do 2 (split; [reflexivity|]).
  split; [apply Z.div_pos; lia|].
  assert (Hrow : forall r, In r (drawn_rows s e dp) ->
            0 <= j r - i r <= e - s).
  { intros r Hr. apply in_drawn_rows in Hr.
    destruct Hr as (Hr & _ & Hi & Hj). specialize (Hij r Hr). lia. }
  assert (Hm : (0 <= max_arc_height (drawn_rows s e dp))%Q
               /\ (max_arc_height (drawn_rows s e dp)
                   <= inject_Z (e - s) / 2)%Q
               /\ forall r, In r (drawn_rows s e dp) ->
                    (inject_Z (j r - i r) / 2
                     <= max_arc_height (drawn_rows s e dp))%Q).
  { destruct (max_arc_height_spec (drawn_rows s e dp))
      as [[Hnil ->]|(r & Hr & -> & Hmax)].
    - rewrite Hnil. repeat split.
      + discriminate.
      + unfold Qle, Qdiv, Qmult, Qinv, inject_Z. cbn. lia.
      + intros r [].
    - specialize (Hrow r Hr). repeat split.
      + unfold Qle, Qdiv, Qmult, Qinv, inject_Z. cbn. lia.
      + unfold Qle, Qdiv, Qmult, Qinv, inject_Z. cbn. lia.
      + intros r' Hr'. specialize (Hmax r' Hr').
        unfold Qle, Qdiv, Qmult, Qinv, inject_Z. cbn. lia. }
  destruct Hm as (Hm0 & Hm1 & Hm2).
  do 2 (split; [assumption|]).
  assert (Harc : forall a, In a (map fst (draw_order s e dp)) ->
            0 <= width a
            /\ (inject_Z (width a) / 2
                <= max_arc_height (drawn_rows s e dp))%Q).
  { intros a Ha. apply in_draw_order in Ha. destruct Ha as (r & Hr & ->).
    destruct (arc_entry_geometry r) as (_ & -> & _).
    split; [apply (Hrow r Hr) | apply (Hm2 r Hr)]. }
  intros new [->| ->];
    (split; [rewrite <- (filtered_prob_df_drawn_rows s e dp Hij);
             apply canvases_new; reflexivity|]);
    (split; [rewrite <- (filtered_prob_df_drawn_rows s e dp Hij);
             cbn; auto|]);
    intros a Ha; rewrite added_patches_new in Ha by reflexivity;
    exact (Harc a Ha).
Qed.

Lemma canvas_fits_arcs_witness :
  exists m : Q,
    canvases (snd (Pdf.generate_arc_plot 1 20 scenario "test/AA" []))
    = [((20 - 1) / 4, (m / 4)%Q)]
    /\ (0 <= m)%Q.
Proof.
  destruct (canvas_fits_arcs 1 20 scenario "test/AA" [])
    as (m & new & new' & Hp & _ & _ & Hm & _ & Hnew).
  - cbn. lia.
  - lia.
  - cbn. intros r Hr.
    repeat (destruct Hr as [<-|Hr]; [cbn; lia|]). destruct Hr.
  - exists m. split; [|exact Hm].
    cbn [app] in Hp. rewrite Hp.
    exact (proj1 (Hnew new (or_introl eq_refl))).
Defined.

(** ** Ticks *)

Lemma in_range (a b k : Z) : In k (range a b) <-> a <= k < b.
Proof.
  unfold range. rewrite in_map_iff. split.
  - intros (n & <- & Hn). apply in_seq in Hn. lia.
  - intro H. exists (Z.to_nat (k - a)). split; [lia|].
    apply in_seq. lia.
Qed.

Lemma range_increasing (a b : Z) : StronglySorted Z.lt (range a b).
Proof.
  unfold range. generalize (Z.to_nat (b - a)) as n. intro n.
  generalize 0%nat as k. induction n as [|n IH]; intro k; cbn.
  - constructor.
  - constructor; [apply IH|].
    apply Forall_forall. intros x Hx. apply in_map_iff in Hx.
    destruct Hx as (m & <- & Hm). apply in_seq in Hm. lia.
Qed.

(** X5.  A successful run sets the ticks of the horizontal axis to the
    integers from [start_nt] to [end_nt], both included, each once and in
    increasing order: every position of the window gets a tick and nothing
    else does; there is none when [end_nt < start_nt]. *)
Theorem ticks_cover_window (s e : Z) (dp : DpFile) (name : string)
  (log : list call) :
  e <= total_length dp ->
  exists (ticks : list Z) (new_pdf new_svg : list call),
    snd (Pdf.generate_arc_plot s e dp name log) = log ++ new_pdf
    /\ snd (Svg.generate_arc_plot s e dp name log) = log ++ new_svg
    /\ In (ax_set_xticks ticks) new_pdf
    /\ In (ax_set_xticks ticks) new_svg
    /\ (forall k, In k ticks <-> s <= k <= e)
    /\ StronglySorted Z.lt ticks
    /\ List.length ticks = Z.to_nat (e + 1 - s).
Proof.
  intro H.
  rewrite (Pdf_run s e dp name log H), (Svg_run s e dp name log H).
  exists (range s (e + 1)). do 2 eexists.
  do 2 (split; [reflexivity|]).
  split; [cbn; auto|]. split; [cbn; auto|]. split; [|split].
  - intro k. rewrite in_range. lia.
  - apply range_increasing.
  - unfold range. now rewrite length_map, length_seq.
Qed.

Lemma ticks_cover_window_witness :
  exists ticks : list Z,
    In (ax_set_xticks ticks)
       (snd (Pdf.generate_arc_plot 1 20 scenario "test/AA" []))
    /\ (In 20 ticks /\ ~ In 21 ticks).
Proof.
  destruct (ticks_cover_window 1 20 scenario "test/AA" [])
    as (ticks & new & new' & Hp & _ & Hin & _ & Hk & _).
  - cbn. lia.
  - exists ticks. split.
    + cbn [app] in Hp. rewrite Hp. exact Hin.
    + split; [apply Hk; lia | intro H21; apply Hk in H21; lia].
Defined.

(** ** Life of the figure *)

(** X6.  A successful run creates its figure first, saves it once, under
    the name [name.pdf] (or [name.svg]), after every call on the axes, and
    closes it last: the calls between creation and saving are calls on the
    axes only, so each run opens exactly one figure and leaves none open. *)
Theorem figure_created_saved_closed (s e : Z) (dp : DpFile) (name : string)
  (log : list call) :
  e <= total_length dp ->
  exists (w : Z) (h : Q) (mid : list call),
    forallb is_ax_call mid = true
    /\ Pdf.generate_arc_plot s e dp name log
       = (inr tt,
          log ++ plt_subplots w h :: mid
              ++ [plt_savefig (name ++ ".pdf") "pdf" "tight" (Some 300);
                  plt_close])
    /\ Svg.generate_arc_plot s e dp name log
       = (inr tt,
          log ++ plt_subplots w h :: mid
              ++ [plt_savefig (name ++ ".svg") "svg" "tight" None;
                  plt_close]).
Proof.
  intro H.
  rewrite (Pdf_run s e dp name log H), (Svg_run s e dp name log H).
  do 2 eexists.
  exists (tl (setup_calls s e dp) ++ patch_calls s e dp ++ style_calls).
  split.
  - rewrite !forallb_app.
    replace (forallb is_ax_call (patch_calls s e dp)) with true;
      [reflexivity|].
    symmetry. apply forallb_forall. intros c Hc.
    apply in_map_iff in Hc. destruct Hc as (x & <- & _). reflexivity.
  - split; cbn [setup_calls tl app]; rewrite <- !app_assoc; reflexivity.
Qed.

Lemma figure_created_saved_closed_witness :
  exists (w : Z) (h : Q) (mid : list call),
    Pdf.generate_arc_plot 1 20 scenario "test/AA" []
    = (inr tt,
       plt_subplots w h :: mid
         ++ [plt_savefig "test/AA.pdf" "pdf" "tight" (Some 300); plt_close]).
Proof.
  destruct (figure_created_saved_closed 1 20 scenario "test/AA" [])
    as (w & h & mid & _ & Hp & _).
  - cbn. lia.
  - exists w, h, mid. exact Hp.
Defined.

(** ** Narrowing the window *)

Lemma filter_comm {A} (f g : A -> bool) (l : list A) :
  filter f (filter g l) = filter g (filter f l).
Proof.
  induction l as [|x l IH]; [reflexivity|]. cbn [filter].
  destruct (g x) eqn:Eg, (f x) eqn:Ef; cbn [filter];
    rewrite ?Eg, ?Ef, IH; reflexivity.
Qed.

Lemma filter_map_swap {A B} (f : A -> B) (g : B -> bool) (l : list A) :
  filter g (map f l) = map f (filter (fun x => g (f x)) l).
Proof.
  induction l as [|x l IH]; [reflexivity|]. cbn [filter map].
  destruct (g (f x)); cbn [map]; now rewrite IH.
Qed.

Lemma filter_narrow {A} (f g : A -> bool) (l : list A) :
  (forall x, f x = true -> g x = true) ->
  filter f (filter g l) = filter f l.
Proof.
  intro Hfg. induction l as [|x l IH]; [reflexivity|]. cbn [filter].
  destruct (g x) eqn:Eg; cbn [filter].
  - now rewrite IH.
  - destruct (f x) eqn:Ef; [|exact IH].
    apply Hfg in Ef. congruence.
Qed.

Lemma StronglySorted_filter {A} (R : A -> A -> Prop) (f : A -> bool)
  (l : list A) :
  StronglySorted R l -> StronglySorted R (filter f l).
Proof.
  induction 1 as [|x l Hs IH Hx]; cbn [filter]; [constructor|].
  destruct (f x); [|exact IH].
  constructor; [exact IH|].
  apply Forall_forall. intros y Hy. apply filter_In in Hy.
  rewrite Forall_forall in Hx. apply Hx, Hy.
Qed.

(** Removing entries before or after the sort gives the same list. *)
Lemma sort_by_key_filter (g : Arc * Z -> bool) (l : list (Arc * Z)) :
  filter g (sort_by_key l) = sort_by_key (filter g l).
Proof.
  apply sort_by_key_unique.
  - apply StronglySorted_filter, sort_by_key_sorted.
  - intro p. rewrite filter_comm, sort_by_key_stable. apply filter_comm.
Qed.

Lemma feet_in_window_entry (s e : Z) (r : PairRecord) :
  feet_in_window s e (fst (arc_entry r)) = in_window s e r.
Proof.
  destruct (arc_entry_feet r) as (Hl & Hr).
  apply eq_iff_eq_true. unfold feet_in_window.
  rewrite in_window_iff, !andb_true_iff, !Qle_bool_iff, Hl, Hr.
  rewrite <- !Zle_Qle. tauto.
Qed.

Lemma draw_order_subwindow (s e s' e' : Z) (dp : DpFile) :
  s <= s' -> e' <= e ->
  map fst (draw_order s' e' dp)
  = filter (feet_in_window s' e') (map fst (draw_order s e dp)).
Proof.
  intros Hs He. rewrite !draw_order_rows.
  rewrite (filter_map_swap fst (feet_in_window s' e')). f_equal.
  rewrite sort_by_key_filter. f_equal.
  rewrite filter_map_swap.
  rewrite (filter_ext _ (in_window s' e'))
    by (intro r; apply feet_in_window_entry).
  f_equal. unfold drawn_rows. symmetry. apply filter_narrow.
  intros r Hr. apply in_window_iff in Hr. apply in_window_iff. lia.
Qed.

(** X7.  Narrowing the window only removes arcs.  For a window
    [start', end'] inside [start_nt, end_nt], the arcs added for the
    narrow window are the arcs added for the wide one with both feet in
    the narrow window, in the same order: no arc is added, changed or
    moved. *)
Theorem subwindow_removes_arcs (s e s' e' : Z) (dp : DpFile)
  (name : string) (log : list call) :
  s <= s' -> e' <= e -> e <= total_length dp ->
  exists wide narrow : list Arc,
    added_patches (snd (Pdf.generate_arc_plot s e dp name log))
      = added_patches log ++ wide
    /\ added_patches (snd (Svg.generate_arc_plot s e dp name log))
      = added_patches log ++ wide
    /\ added_patches (snd (Pdf.generate_arc_plot s' e' dp name log))
      = added_patches log ++ narrow
    /\ added_patches (snd (Svg.generate_arc_plot s' e' dp name log))
      = added_patches log ++ narrow
    /\ narrow = filter (feet_in_window s' e') wide.
Proof.
  intros Hs He H.
  assert (H' : e' <= total_length dp) by lia.
  exists (map fst (draw_order s e dp)), (map fst (draw_order s' e' dp)).
  rewrite (Pdf_run s e dp name log H), (Svg_run s e dp name log H),
    (Pdf_run s' e' dp name log H'), (Svg_run s' e' dp name log H').
  cbn [snd]. rewrite !added_patches_run by reflexivity.
  do 4 (split; [reflexivity|]).
  now apply draw_order_subwindow.
Qed.

Lemma subwindow_removes_arcs_witness :
  added_patches (snd (Pdf.generate_arc_plot 7 13 scenario "test/AA" []))
  = filter (feet_in_window 7 13)
      (added_patches (snd (Pdf.generate_arc_plot 1 20 scenario "test/AA" []))).
Proof.
  destruct (subwindow_removes_arcs 1 20 7 13 scenario "test/AA" [])
    as (wide & narrow & Hw & _ & Hn & _ & Heq); try lia.
  - cbn. lia.
  - cbn [added_patches app] in Hw, Hn. rewrite Hw, Hn. exact Heq.
Defined.

(** ** Order of the rows *)

Lemma Permutation_filter_same {A} (f : A -> bool) (l l' : list A) :
  Permutation l l' -> Permutation (filter f l) (filter f l').
Proof.
  induction 1 as [|x l l' _ IH|x y l|l l' l'' _ IH1 _ IH2]; cbn [filter].
  - constructor.
  - destruct (f x); [now constructor | exact IH].
  - destruct (f x), (f y); try reflexivity. apply perm_swap.
  - now transitivity (filter f l').
Qed.

Lemma max_arc_height_perm (l l' : list PairRecord) :
  Permutation l l' -> max_arc_height l = max_arc_height l'.
Proof.
  intro HP.
  destruct (max_arc_height_spec l) as [[Hnil ->]|(r & Hr & -> & Hmax)].
  - subst l. apply Permutation_nil in HP. now subst l'.
  - destruct (max_arc_height_spec l') as [[Hnil _]|(r' & Hr' & -> & Hmax')].
    + subst l'. apply Permutation_sym, Permutation_nil in HP.
      subst l. destruct Hr.
    + assert (j r - i r = j r' - i r') as ->; [|reflexivity].
      apply Z.le_antisymm.
      * apply Hmax'. exact (Permutation_in _ HP Hr).
      * apply Hmax. exact (Permutation_in _ (Permutation_sym HP) Hr').
Qed.

(** X8.  The order of the rows of the table decides nothing but the order
    among arcs of equal priority.  Two tables with the same length and the
    same rows in a different order give runs that agree on every call
    before and after the arcs (canvas size, axis limits, ticks,
    appearance, file saved), and add the same arcs, each as many times. *)
Theorem row_order_irrelevant (s e L : Z) (rows rows' : list PairRecord)
  (name : string) (log : list call) :
  Permutation rows rows' -> e <= L ->
  exists (pre post_pdf post_svg : list call) (arcs arcs' : list Arc),
    Permutation arcs arcs'
    /\ added_patches pre = []
    /\ added_patches post_pdf = [] /\ added_patches post_svg = []
    /\ Pdf.generate_arc_plot s e (mkDp L rows) name log
       = (inr tt, log ++ pre ++ map ax_add_patch arcs ++ post_pdf)
    /\ Pdf.generate_arc_plot s e (mkDp L rows') name log
       = (inr tt, log ++ pre ++ map ax_add_patch arcs' ++ post_pdf)
    /\ Svg.generate_arc_plot s e (mkDp L rows) name log
       = (inr tt, log ++ pre ++ map ax_add_patch arcs ++ post_svg)
    /\ Svg.generate_arc_plot s e (mkDp L rows') name log
       = (inr tt, log ++ pre ++ map ax_add_patch arcs' ++ post_svg).
Proof.
  intros HP H.
  rewrite (Pdf_run s e (mkDp L rows) name log H),
    (Svg_run s e (mkDp L rows) name log H),
    (Pdf_run s e (mkDp L rows') name log H),
    (Svg_run s e (mkDp L rows') name log H).
  assert (Hsetup : setup_calls s e (mkDp L rows')
                   = setup_calls s e (mkDp L rows)).
  { unfold setup_calls. cbn [prob_df].
    rewrite (max_arc_height_perm
               (filtered_prob_df s e (drop_low rows'))
               (filtered_prob_df s e (drop_low rows))); [reflexivity|].
    unfold filtered_prob_df, drop_low.
    apply Permutation_filter_same, Permutation_filter_same.
    now symmetry. }
  rewrite Hsetup.
  exists (setup_calls s e (mkDp L rows)),
    (style_calls
       ++ [plt_savefig (name ++ ".pdf") "pdf" "tight" (Some 300); plt_close]),
    (style_calls
       ++ [plt_savefig (name ++ ".svg") "svg" "tight" None; plt_close]),
    (map fst (draw_order s e (mkDp L rows))),
    (map fst (draw_order s e (mkDp L rows'))).
  unfold patch_calls. rewrite !map_map.
  split; [|repeat split].
  rewrite !draw_order_rows.
  apply Permutation_map.
  rewrite !(sort_by_key_perm _).
  apply Permutation_map. unfold drawn_rows, drop_low. cbn [prob_df].
  now apply Permutation_filter_same, Permutation_filter_same.
Qed.

Lemma row_order_irrelevant_witness :
  canvases
    (snd (Pdf.generate_arc_plot 1 20
            (mkDp 20 [mkPair 6 14 (3 # 10); mkPair 5 15 (5 # 100)]) "out" []))
  = canvases
      (snd (Pdf.generate_arc_plot 1 20
              (mkDp 20 [mkPair 5 15 (5 # 100); mkPair 6 14 (3 # 10)])
              "out" [])).
Proof.
  destruct (row_order_irrelevant 1 20 20
              [mkPair 6 14 (3 # 10); mkPair 5 15 (5 # 100)]
              [mkPair 5 15 (5 # 100); mkPair 6 14 (3 # 10)] "out" [])
    as (pre & post & post' & arcs & arcs' & _ & _ & _ & _ & H1 & H2 & _).
  - apply perm_swap.
  - lia.
  - rewrite H1, H2. cbn [snd app]. rewrite !canvases_app.
    rewrite !canvases_map_patch. reflexivity.
Defined.

(** * Further properties: the RNAstructure pipeline *)


(** The term on which the evaluation of [x] waits. *)
Ltac stuck_term x :=
  match x with
  | context [match ?y with _ => _ end] => stuck_term y
  | negb ?y => stuck_term y
  | _ => x
  end.

(** One case distinction on the next answer of the system, in [H]. *)
Ltac os_case H :=
  match type of H with
  | context [match ?x with _ => _ end] =>
      let y := stuck_term x in
      let E := fresh "E" in
      destruct y eqn:E; cbn in H
  end.

Ltac os_unfold H :=
  unfold predict_rna_structure, predict_rna_structure_prob,
    generate_prob_file in H;
  unfold OsM.bind, OsM.ret, with_open, expanduser, environ_set, environ_get,
    path_exists, makedirs, fwrite, fread, subprocess_call, print in H;
  cbn in H.


(** ** The sequence written to the input file *)

Lemma norm_char (c : ascii) :
  let d := if Ascii.eqb (ascii_upper c) "T" then "U"%char else ascii_upper c in
  d <> "T"%char /\ ascii_upper d = d
  /\ (if Ascii.eqb (ascii_upper d) "T" then "U"%char else ascii_upper d) = d
  /\ (In c (list_ascii_of_string "ACGTUacgtu") ->
      In d (list_ascii_of_string "ACGU")).
Proof.
  destruct c as [[] [] [] [] [] [] [] []]; vm_compute;
    (split; [discriminate|]); (split; [reflexivity|]);
    (split; [reflexivity|]); intro H;
    repeat (destruct H as [H|H]; [try discriminate H|]);
    try contradiction; auto 10.
Qed.

(** X9.  [rna_sequence.upper().replace('T', 'U')], the sequence that both
    functions write to the input file: it has the length of the argument,
    holds no T and no lower-case letter, is left unchanged by a second
    normalisation, and is made of A, C, G and U when the argument is made
    of the letters A, C, G, T and U in either case. *)
Theorem sequence_normalised (s : string) :
  let t := replace_char "T" "U" (upper s) in
  String.length t = String.length s
  /\ (forall c, In c (list_ascii_of_string t) ->
        c <> "T"%char /\ ascii_upper c = c)
  /\ replace_char "T" "U" (upper t) = t
  /\ (Forall (fun c => In c (list_ascii_of_string "ACGTUacgtu"))
        (list_ascii_of_string s) ->
      Forall (fun c => In c (list_ascii_of_string "ACGU"))
        (list_ascii_of_string t)).
Proof.
  cbv zeta. induction s as [|c s (IH1 & IH2 & IH3 & IH4)].
  - repeat split; try reflexivity.
    + destruct H.
    + destruct H.
    + constructor.
  - destruct (norm_char c) as (N1 & N2 & N3 & N4).
    cbn [upper replace_char String.length list_ascii_of_string].
    split; [now rewrite IH1|]. split; [|split].
    + intros d [<-|Hd]; [split; assumption | now apply IH2].
    + now rewrite N3, IH3.
    + intro H. inversion H as [|? ? Hc Hs]; subst.
      constructor; [now apply N4 | now apply IH4].
Qed.

Lemma sequence_normalised_witness :
  Forall (fun c => In c (list_ascii_of_string "ACGU"))
    (list_ascii_of_string (replace_char "T" "U" (upper "gaTtaca"))).
Proof.
  apply (sequence_normalised "gaTtaca").
  cbn. repeat (apply Forall_cons; [auto 15|]). apply Forall_nil.
Defined.

Lemma string_app_nil_r (s : string) : (s ++ "")%string = s.
Proof. induction s as [|c s IH]; cbn; [reflexivity | now rewrite IH]. Qed.

(** ** Lines *)

(** Writing the lines of a file one after the other gives the file. *)
Lemma lines_of_append (s : string) :
  fold_right String.append ""%string (lines_of s) = s.
Proof.
  induction s as [|c s IH]; [reflexivity|]. cbn [lines_of].
  destruct (is_newline c).
  - cbn. now rewrite IH.
  - destruct (lines_of s) as [|l ls].
    + cbn in *. now rewrite <- IH.
    + cbn in *. now rewrite IH.
Qed.

Arguments path_join : simpl never.

(** All the runs of a function: one case for each answer of the system on
    which the function branches. *)
Ltac os_run H :=
  os_unfold H; repeat os_case H; injection H as <- <-;
  repeat match goal with
    | u : unit |- _ => destruct u
    | E : os_environ_get _ _ _ = _ |- _ => clear E
    | E : os_exists _ _ _ = _ |- _ => clear E
    | E : os_makedirs _ _ _ = _ |- _ => clear E
    | E : os_open _ _ _ _ = _ |- _ => clear E
    | E : os_write _ _ _ _ = _ |- _ => clear E
    | E : os_read _ _ _ = _ |- _ => clear E
    | E : os_close _ _ _ _ = _ |- _ => clear E
    | E : os_call _ _ _ = _ |- _ => clear E
    end.

(** Decides membership of an event in an explicit history. *)
Ltac in_history H :=
  cbn in H; repeat (destruct H as [H|H]; [try discriminate H|]);
  try contradiction.

Section PipelineFacts.

Variable os : OS.


(** ** Cell 1a: [predict_rna_structure] *)

(** X10.  When [PATH] is not in the environment, [predict_rna_structure]
    raises [KeyError] at the lookup: [DATAPATH] has been set by then, and
    nothing else happens (no directory or file is touched, no command is
    run, nothing is printed). *)
Theorem structure_path_unset (seq name dir : string) :
  let run := predict_rna_structure os seq name dir [] in
  In (io_environ_get "PATH" None) (snd run) ->
  fst run = inl (KeyError "PATH")
  /\ exists d x : string,
       snd run
       = [ io_expanduser "~/RNAstructure/data_tables" d;
           io_environ_set "DATAPATH" d;
           io_expanduser "~/RNAstructure/exe" x;
           io_environ_get "PATH" None ].
Proof.
  cbv zeta.
  destruct (predict_rna_structure os seq name dir []) as [r tr] eqn:H.
  cbn [fst snd]. intro Hin. os_run H; in_history Hin.
  split; [reflexivity|]. do 2 eexists. reflexivity.
Qed.

(** X11.  [os.makedirs] is called on the output directory only, and only
    after [os.path.exists] answered that it is missing.  When it raises,
    the exception leaves the function before any file is opened and any
    command is run. *)
Theorem structure_makedirs (seq name dir : string) :
  let run := predict_rna_structure os seq name dir [] in
  (forall p res, In (io_makedirs p res) (snd run) ->
     p = dir /\ In (io_exists dir false) (snd run))
  /\ (forall e, In (io_makedirs dir (inl e)) (snd run) ->
        fst run = inl e /\ commands (snd run) = []
        /\ forall p m res, ~ In (io_open p m res) (snd run)).
Proof.
  cbv zeta.
  destruct (predict_rna_structure os seq name dir []) as [r tr] eqn:H.
  cbn [fst snd]. os_run H; split.
  all: try (intros p res Hin; in_history Hin;
            injection Hin as <- <-; (split; [reflexivity | cbn; auto 20])).
  all: intros e Hin; in_history Hin; injection Hin as <-.
  split; [reflexivity|]. split; [reflexivity|].
  intros p m res Hn. in_history Hn.
Qed.

(** X12.  Whenever [predict_rna_structure] runs a command, the first one
    is [Fold input_file ct_file], and before it the input file has been
    opened, written and closed without error: what was written is the
    line [>rna_name] followed by the normalised sequence on one line. *)
Theorem structure_input_written_first (seq name dir : string) :
  let run := predict_rna_structure os seq name dir [] in
  let input_file := path_join dir (name ++ ".seq") in
  let ct_file := path_join dir (name ++ ".ct") in
  commands (snd run) <> [] ->
  (exists rest,
     commands (snd run) = ["Fold"; input_file; ct_file]%string :: rest)
  /\ written input_file (before_calls (snd run))
     = (">" ++ name ++ nl ++ replace_char "T" "U" (upper seq) ++ nl)%string
  /\ In (io_open input_file "w" (inr tt)) (before_calls (snd run))
  /\ In (io_close input_file "w" (inr tt)) (before_calls (snd run)).
Proof.
  cbv zeta.
  destruct (predict_rna_structure os seq name dir []) as [r tr] eqn:H.
  cbn [fst snd]. intro Hc. os_run H; cbn in Hc; try congruence; clear Hc.
  all: split; [eexists; reflexivity|].
  all: cbn; rewrite String.eqb_refl; cbn; rewrite ?string_app_nil_r.
  all: split; [reflexivity | split; auto 20].
Qed.

(** X13.  A command that returns a non-zero code stops
    [predict_rna_structure] without an exception: the function returns
    [None], the failing command is the last one run ([ct2dot] is not run
    after a failed [Fold]), and the only line printed is the error message
    of that command. *)
Theorem structure_command_failure (seq name dir : string) :
  let run := predict_rna_structure os seq name dir [] in
  let input_file := path_join dir (name ++ ".seq") in
  let ct_file := path_join dir (name ++ ".ct") in
  let dot_bracket_file := path_join dir (name ++ ".dbn") in
  let fold := ["Fold"; input_file; ct_file]%string in
  let ct2dot := ["ct2dot"; ct_file; "1"; dot_bracket_file]%string in
  forall argv c,
    In (io_call argv (inr c)) (snd run) -> c <> 0 ->
    fst run = inr None
    /\ ((argv = fold /\ commands (snd run) = [fold]
         /\ printed (snd run)
            = ["Error running Fold. Check if RNAstructure is properly installed."%string])
        \/ (argv = ct2dot /\ commands (snd run) = [fold; ct2dot]
            /\ printed (snd run)
               = ["Error running ct2dot. Check if RNAstructure is properly installed."%string])).
Proof.
  cbv zeta.
  destruct (predict_rna_structure os seq name dir []) as [r tr] eqn:H.
  cbn [fst snd]. intros argv c Hin Hc. os_run H; in_history Hin.
  all: injection Hin as <- <-.
  all: repeat match goal with
         | E : (_ =? 0) = true |- _ => apply Z.eqb_eq in E
         end; try congruence.
  all: split; [reflexivity|].
  all: first [ left; repeat split; reflexivity
             | right; repeat split; reflexivity ].
Qed.

(** X14.  What [predict_rna_structure] returns.  It returns the content
    read from the dot-bracket file only after [Fold] and [ct2dot] both
    returned 0 and the file was found, read and closed, and then it has
    printed nothing.  It returns [None] only after printing exactly one
    of its three error messages.  When it raises, it has printed
    nothing. *)
Theorem structure_result (seq name dir : string) :
  let run := predict_rna_structure os seq name dir [] in
  let input_file := path_join dir (name ++ ".seq") in
  let ct_file := path_join dir (name ++ ".ct") in
  let dot_bracket_file := path_join dir (name ++ ".dbn") in
  (forall content, fst run = inr (Some content) ->
     commands (snd run)
     = [ ["Fold"; input_file; ct_file];
         ["ct2dot"; ct_file; "1"; dot_bracket_file] ]%string
     /\ (forall argv res, In (io_call argv res) (snd run) -> res = inr 0)
     /\ In (io_exists dot_bracket_file true) (snd run)
     /\ In (io_read dot_bracket_file (inr content)) (snd run)
     /\ In (io_close dot_bracket_file "r" (inr tt)) (snd run)
     /\ printed (snd run) = [])
  /\ (fst run = inr None ->
        exists msg, printed (snd run) = [msg]
          /\ In msg
               [ "Error running Fold. Check if RNAstructure is properly installed.";
                 "Error running ct2dot. Check if RNAstructure is properly installed.";
                 "Dot-bracket file was not created." ]%string)
  /\ (forall e, fst run = inl e -> printed (snd run) = []).
Proof.
  cbv zeta.
  destruct (predict_rna_structure os seq name dir []) as [r tr] eqn:H.
  cbn [fst snd]. os_run H.
  all: repeat match goal with
         | E : (_ =? 0) = true |- _ => apply Z.eqb_eq in E; subst
         end.
  all: split; [|split].
  all: try (intros ? Hr; discriminate Hr).
  all: try (intros Hr; discriminate Hr).
  all: try (intros e Hr; reflexivity).
  all: try (intros Hr; eexists; (split; [reflexivity | cbn; auto])).
  all: intros content Hr; injection Hr as <-.
  all: split; [reflexivity|].
  all: split; [intros argv res Hin; in_history Hin;
               now injection Hin as <- <-|].
  all: cbn; auto 30.
Qed.

End PipelineFacts.

Lemma structure_path_unset_witness :
  fst (predict_rna_structure os_bare "acgt" "TG" "test" [])
  = inl (KeyError "PATH").
Proof.
  apply (structure_path_unset os_bare "acgt" "TG" "test").
  cbn. auto.
Defined.

Lemma structure_makedirs_witness :
  fst (predict_rna_structure
         (mkOS (os_expanduser os_fine) (os_environ_get os_fine)
               (fun _ _ => false) (fun _ _ => inl (OSError "denied"))
               (os_open os_fine) (os_write os_fine) (os_read os_fine)
               (os_close os_fine) (os_call os_fine))
         "acgt" "TG" "test" [])
  = inl (OSError "denied").
Proof.
  apply structure_makedirs. vm_compute. auto 10.
Defined.

Lemma structure_input_written_first_witness :
  written (path_join "test" ("TG" ++ ".seq"))
    (before_calls (snd (predict_rna_structure os_fine "acgt" "TG" "test" [])))
  = (">" ++ "TG" ++ nl ++ replace_char "T" "U" (upper "acgt") ++ nl)%string.
Proof.
  destruct (structure_input_written_first os_fine "acgt" "TG" "test")
    as (_ & Hw & _).
  - vm_compute. discriminate.
  - exact Hw.
Defined.

Lemma structure_command_failure_witness :
  fst (predict_rna_structure os_commands_fail "acgt" "TG" "test" [])
  = inr None.
Proof.
  apply (structure_command_failure os_commands_fail "acgt" "TG" "test"
           ["Fold"; "test/TG.seq"; "test/TG.ct"]%string 1).
  - vm_compute. auto 12.
  - discriminate.
Defined.

Lemma structure_result_witness :
  printed (snd (predict_rna_structure os_fine "acgt" "TG" "test" [])) = []
  /\ exists msg,
       printed (snd (predict_rna_structure os_commands_fail "acgt" "TG"
                       "test" [])) = [msg].
Proof.
  destruct (structure_result os_fine "acgt" "TG" "test") as (Hs & _ & _).
  destruct (structure_result os_commands_fail "acgt" "TG" "test")
    as (_ & Hn & _).
  split.
  - apply (Hs ("1 2" ++ nl ++ "3")%string). reflexivity.
  - destruct (Hn eq_refl) as (msg & Hm & _). exists msg. exact Hm.
Defined.
Section ConvertFacts.

Variable os : OS.

(** ** Cell 1b: [convert_prob_to_dp] *)

(** The loop [for line in prob: dp.write(line)]: it appends writes to the
    file only, one per line while they succeed, and stops at the first
    write that raises. *)
Lemma write_lines_run (d : string) (lines : list string) (h : list io)
  (r : os_exn + unit) (t : list io) :
  OsM.for_each lines (fun line => fwrite os d line) h = (r, t) ->
  exists ws,
    t = h ++ ws
    /\ Forall (fun ev => exists l res, ev = io_write d l res) ws
    /\ (r = inr tt -> ws = map (fun l => io_write d l (inr tt)) lines)
    /\ (forall e, r = inl e -> exists l, In (io_write d l (inl e)) ws).
Proof.
  revert h. induction lines as [|l ls IH]; intros h H.
  - injection H as <- <-. exists []. rewrite app_nil_r.
    split; [reflexivity|]. split; [constructor|].
    split; [reflexivity|]. intros e He. discriminate He.
  - cbn [OsM.for_each] in H. unfold OsM.bind in H. unfold fwrite at 1 in H.
    cbn zeta in H.
    destruct (os_write os h d l) as [e|[]] eqn:E.
    + injection H as <- <-. exists [io_write d l (inl e)].
      split; [reflexivity|]. split; [repeat constructor; eauto|].
      split; [intro He; discriminate He|].
      intros e' He. injection He as <-. exists l. now left.
    + destruct (IH _ H) as (ws & -> & Hf & Hok & Herr).
      exists (io_write d l (inr tt) :: ws).
      rewrite <- app_assoc.
      split; [reflexivity|]. split; [constructor; [eauto | exact Hf]|].
      split.
      * intro He. cbn. now rewrite (Hok He).
      * intros e He. destruct (Herr e He) as (l' & Hl'). exists l'.
        now right.
Qed.

(** [with open(path, mode) as f: body]: either the file cannot be opened
    and nothing else happens, or the body runs and the file is closed
    after it; an exception of [close] replaces the outcome of the body. *)
Lemma with_open_run {A} (path mode : string) (body : OsM.M A) (h : list io) :
  let run := with_open os path mode body h in
  let inside := body (h ++ [io_open path mode (inr tt)]) in
  (exists e, run = (inl e, h ++ [io_open path mode (inl e)]))
  \/ (exists c,
        snd run = snd inside ++ [io_close path mode c]
        /\ fst run = match c with
                     | inl e => inl e
                     | inr _ => fst inside
                     end).
Proof.
  cbv zeta. unfold with_open.
  destruct (os_open os h path mode) as [e0|[]]; [left; eauto|right].
  destruct (body (h ++ [io_open path mode (inr tt)])) as [res h2].
  cbn [fst snd].
  destruct (os_close os h2 path mode) as [e|[]] eqn:E.
  - exists (inl e). split; reflexivity.
  - exists (inr tt). split; reflexivity.
Qed.

(** The body of the two [with]: read the file, write its lines. *)
Lemma copy_lines_run (p d : string) (h : list io) :
  let run :=
    (content <- fread os p ;;
     OsM.for_each (lines_of content) (fun line => fwrite os d line)) h in
  exists (rd : os_exn + string) (ws : list io),
    snd run = h ++ io_read p rd :: ws
    /\ Forall (fun ev => exists l res, ev = io_write d l res) ws
    /\ (fst run = inr tt ->
        exists content,
          rd = inr content
          /\ ws = map (fun l => io_write d l (inr tt)) (lines_of content)).
Proof.
  cbv zeta. unfold OsM.bind, fread.
  destruct (os_read os h p) as [e|content].
  - exists (inl e), []. cbn.
    split; [reflexivity|]. split; [constructor|].
    intro He. discriminate He.
  - destruct (OsM.for_each (lines_of content) (fun line => fwrite os d line)
                (h ++ [io_read p (inr content)])) as [r t] eqn:E.
    destruct (write_lines_run _ _ _ _ _ E) as (ws & -> & Hf & Hok & _).
    exists (inr content), ws. cbn [fst snd]. rewrite <- app_assoc.
    split; [reflexivity|]. split; [exact Hf|]. intro He. exists content.
    split; [reflexivity | exact (Hok He)].
Qed.

Lemma string_app_assoc (a b c : string) :
  ((a ++ b) ++ c)%string = (a ++ b ++ c)%string.
Proof. induction a as [|x a IH]; cbn; [reflexivity | now rewrite IH]. Qed.

Lemma written_app (p : string) (h1 h2 : list io) :
  written p (h1 ++ h2) = (written p h1 ++ written p h2)%string.
Proof.
  induction h1 as [|ev h1 IH]; [reflexivity|].
  destruct ev; cbn; try exact IH.
  destruct res; [exact IH|].
  destruct (path =? p)%string; [|exact IH].
  rewrite IH. symmetry. apply string_app_assoc.
Qed.

Lemma written_lines (d : string) (lines : list string) :
  written d (map (fun l => io_write d l (inr tt)) lines)
  = fold_right String.append ""%string lines.
Proof.
  induction lines as [|l ls IH]; [reflexivity|].
  cbn. now rewrite String.eqb_refl, IH.
Qed.

Lemma printed_app (h1 h2 : list io) :
  printed (h1 ++ h2) = printed h1 ++ printed h2.
Proof.
  induction h1 as [|ev h1 IH]; [reflexivity|].
  destruct ev; cbn; rewrite IH; reflexivity.
Qed.

Lemma commands_app (h1 h2 : list io) :
  commands (h1 ++ h2) = commands h1 ++ commands h2.
Proof.
  induction h1 as [|ev h1 IH]; [reflexivity|].
  destruct ev; cbn; rewrite IH; reflexivity.
Qed.

Lemma writes_only (d : string) (ws : list io) :
  Forall (fun ev => exists l res, ev = io_write d l res) ws ->
  printed ws = [] /\ commands ws = []
  /\ forall ev, In ev ws -> exists l res, ev = io_write d l res.
Proof.
  intro H. split; [|split].
  - induction H as [|ev ws (l & res & ->) _ IH]; [reflexivity | exact IH].
  - induction H as [|ev ws (l & res & ->) _ IH]; [reflexivity | exact IH].
  - apply Forall_forall, H.
Qed.

(** Every run of [convert_prob_to_dp], from any history: the source
    cannot be opened; or the destination cannot be opened and the source
    is closed again; or both are open, the source is read, its lines are
    written, both files are closed, and the message is printed if nothing
    raised. *)
Lemma convert_run (p d : string) (h : list io) :
  let run := convert_prob_to_dp os p d h in
  let msg := ("Converted .prob to .dp format and saved to: " ++ d)%string in
  (exists e, run = (inl e, h ++ [io_open p "r" (inl e)]))
  \/ (exists e c,
        snd run = h ++ [io_open p "r" (inr tt); io_open d "w" (inl e);
                        io_close p "r" c]
        /\ fst run = match c with inl e' => inl e' | inr _ => inl e end)
  \/ (exists (rd : os_exn + string) (ws : list io) (c1 c2 : os_exn + unit),
        snd run
        = h ++ [io_open p "r" (inr tt); io_open d "w" (inr tt); io_read p rd]
            ++ ws ++ [io_close d "w" c1; io_close p "r" c2]
            ++ match fst run with inr _ => [io_print msg] | inl _ => [] end
        /\ Forall (fun ev => exists l res, ev = io_write d l res) ws
        /\ (fst run = inr tt ->
            exists content,
              rd = inr content /\ c1 = inr tt /\ c2 = inr tt
              /\ ws = map (fun l => io_write d l (inr tt))
                         (lines_of content))).
Proof.
  cbv zeta.
  destruct (convert_prob_to_dp os p d h) as [r tr] eqn:H. cbn [fst snd].
  unfold convert_prob_to_dp in H. unfold OsM.bind at 1 in H.
  set (inner := (content <- fread os p ;;
                 OsM.for_each (lines_of content)
                   (fun line => fwrite os d line))) in H.
  destruct (with_open_run p "r" (with_open os d "w" inner) h)
    as [(e & He)|(c2 & Hs2 & Hf2)].
  { left. exists e. rewrite He in H. now injection H as <- <-. }
  right.
  destruct (with_open os p "r" (with_open os d "w" inner) h) as [r2 t2].
  cbn [fst snd] in Hs2, Hf2.
  destruct (with_open_run d "w" inner (h ++ [io_open p "r" (inr tt)]))
    as [(e & He)|(c1 & Hs1 & Hf1)].
  { left. exists e, c2. rewrite He in Hs2, Hf2. cbn [fst snd] in Hs2, Hf2.
    subst r2 t2. rewrite <- !app_assoc in H. cbn [app] in H.
    destruct c2 as [e'|[]]; injection H as <- <-; split; reflexivity. }
  right.
  destruct (with_open os d "w" inner (h ++ [io_open p "r" (inr tt)]))
    as [r1 t1].
  cbn [fst snd] in Hs1, Hf1, Hs2, Hf2.
  destruct (copy_lines_run p d
              ((h ++ [io_open p "r" (inr tt)]) ++ [io_open d "w" (inr tt)]))
    as (rd & ws & Hs0 & Hw & Hok).
  fold inner in Hs0, Hok.
  destruct (inner ((h ++ [io_open p "r" (inr tt)])
                     ++ [io_open d "w" (inr tt)])) as [r0 t0].
  cbn [fst snd] in Hs0, Hok, Hs1, Hf1.
  exists rd, ws, c1, c2. subst t0 t1 t2.
  assert (Hr2 : r2 = inr tt -> r0 = inr tt /\ c1 = inr tt /\ c2 = inr tt).
  { intro H2. subst r2. destruct c2 as [e2|[]]; [discriminate|].
    subst r1. destruct c1 as [e1|[]]; [discriminate|]. auto. }
  unfold print in H.
  destruct r2 as [e|[]]; injection H as <- <-.
  - split; [rewrite <- !app_assoc; reflexivity|].
    split; [exact Hw|]. intro H2. discriminate H2.
  - split; [rewrite <- !app_assoc; reflexivity|].
    split; [exact Hw|]. intros _.
    destruct (Hr2 eq_refl) as (H0 & -> & ->).
    destruct (Hok H0) as (content & -> & ->). exists content. auto.
Qed.

(** X15.  [convert_prob_to_dp] is a copy.  When it returns normally it
    has opened the source, then the destination, read the source, written
    its lines to the destination one by one in order, closed both files
    and printed its message, and nothing else; what was written to the
    destination is the content read from the source. *)
Theorem convert_copies (p d : string) :
  let run := convert_prob_to_dp os p d [] in
  fst run = inr tt ->
  exists content : string,
    snd run
    = [io_open p "r" (inr tt); io_open d "w" (inr tt);
       io_read p (inr content)]
      ++ map (fun l => io_write d l (inr tt)) (lines_of content)
      ++ [io_close d "w" (inr tt); io_close p "r" (inr tt);
          io_print ("Converted .prob to .dp format and saved to: " ++ d)]
    /\ written d (snd run) = content.
Proof.
  cbv zeta. intro Hok.
  destruct (convert_run p d [])
    as [(e & He)|[(e & c & _ & Hf)|(rd & ws & c1 & c2 & Hs & _ & Hr)]].
  - rewrite He in Hok. discriminate Hok.
  - rewrite Hf in Hok. destruct c; discriminate Hok.
  - destruct (Hr Hok) as (content & -> & -> & -> & ->).
    exists content. rewrite Hs, Hok. cbn [app]. split; [reflexivity|].
    change (written d (map (fun l => io_write d l (inr tt)) (lines_of content)
                       ++ [io_close d "w" (inr tt); io_close p "r" (inr tt);
                           io_print ("Converted .prob to .dp format and saved to: " ++ d)])
            = content).
    rewrite written_app, written_lines, lines_of_append. cbn.
    apply string_app_nil_r.
Qed.

(** X16.  How [convert_prob_to_dp] fails.  If the source cannot be
    opened, that exception is raised and nothing else has happened: the
    destination is not opened, so an existing destination is not emptied.
    Every file that was opened is closed before the function returns or
    raises.  The message is printed only when nothing raised.  No command
    is run. *)
Theorem convert_failures (p d : string) :
  let run := convert_prob_to_dp os p d [] in
  (forall e, In (io_open p "r" (inl e)) (snd run) ->
     run = (inl e, [io_open p "r" (inl e)]))
  /\ (forall f m, In (io_open f m (inr tt)) (snd run) ->
        exists c, In (io_close f m c) (snd run))
  /\ (forall e, fst run = inl e -> printed (snd run) = [])
  /\ commands (snd run) = [].
Proof.
  cbv zeta.
  destruct (convert_run p d [])
    as [(e0 & He)|[(e0 & c & Hs & Hf)|(rd & ws & c1 & c2 & Hs & Hw & Hr)]].
  - rewrite He. cbn [fst snd]. split; [|split; [|split]].
    + intros e Hin. in_history Hin. now injection Hin as <-.
    + intros f m Hin. in_history Hin.
    + reflexivity.
    + reflexivity.
  - rewrite Hs, Hf. cbn [app]. split; [|split; [|split]].
    + intros e Hin. in_history Hin.
    + intros f m Hin. in_history Hin. injection Hin as <- <-.
      exists c. cbn. auto.
    + reflexivity.
    + reflexivity.
  - destruct (writes_only d ws Hw) as (Hp & Hc & Hin_ws).
    rewrite Hs. cbn [app]. split; [|split; [|split]].
    + intros e Hin.
      destruct Hin as [Hin|[Hin|[Hin|Hin]]]; try discriminate Hin.
      apply in_app_iff in Hin. destruct Hin as [Hin|Hin].
      * destruct (Hin_ws _ Hin) as (l & res & Heq). discriminate Heq.
      * destruct (fst (convert_prob_to_dp os p d [])); in_history Hin.
    + intros f m Hin.
      destruct Hin as [Hin|[Hin|[Hin|Hin]]]; try discriminate Hin.
      * injection Hin as <- <-. exists c2. right. right. right.
        apply in_app_iff. right. cbn. auto.
      * injection Hin as <- <-. exists c1. right. right. right.
        apply in_app_iff. right. cbn. auto.
      * apply in_app_iff in Hin. destruct Hin as [Hin|Hin].
        -- destruct (Hin_ws _ Hin) as (l & res & Heq). discriminate Heq.
        -- destruct (fst (convert_prob_to_dp os p d [])); in_history Hin.
    + intros e He. rewrite He. cbn. now rewrite printed_app, Hp.
    + cbn. rewrite commands_app, Hc.
      destruct (fst (convert_prob_to_dp os p d [])); reflexivity.
Qed.

(** What a caller sees of a run of [convert_prob_to_dp]: it first tries
    to open the source, runs no command, and prints its message exactly
    when it returns normally, the destination then holding a copy. *)
Lemma convert_shape (p d : string) (h : list io) (r : os_exn + unit)
  (t : list io) :
  convert_prob_to_dp os p d h = (r, t) ->
  exists res rest,
    t = h ++ io_open p "r" res :: rest
    /\ commands rest = []
    /\ (r = inr tt ->
        printed rest
        = [("Converted .prob to .dp format and saved to: " ++ d)%string]
        /\ exists content,
             In (io_read p (inr content)) rest /\ written d rest = content)
    /\ (forall e, r = inl e -> printed rest = []).
Proof.
  intro H.
  destruct (convert_run p d h)
    as [(e & He)|[(e & c & Hs & Hf)|(rd & ws & c1 & c2 & Hs & Hw & Hr)]];
    rewrite H in *; cbn [fst snd] in *.
  - injection He as -> ->. exists (inl e), [].
    split; [reflexivity|]. split; [reflexivity|].
    split; [intro Hr; discriminate Hr | reflexivity].
  - subst t. exists (inr tt), [io_open d "w" (inl e); io_close p "r" c].
    split; [reflexivity|]. split; [reflexivity|].
    split; [|reflexivity].
    intro Hr. rewrite Hr in Hf. destruct c; discriminate Hf.
  - destruct (writes_only d ws Hw) as (Hp & Hc & _).
    subst t. eexists (inr tt), _. split; [reflexivity|].
    split; [|split].
    + cbn. rewrite commands_app, Hc. destruct r; reflexivity.
    + intro Hok. destruct (Hr Hok) as (content & -> & -> & -> & ->).
      subst r. cbn. rewrite printed_app, Hp. split; [reflexivity|].
      exists content. split; [right; now left|].
      rewrite written_app, written_lines, lines_of_append. cbn.
      apply string_app_nil_r.
    + intros e He. subst r. cbn. now rewrite printed_app, Hp.
Qed.

Lemma in_commands (argv : list string) (res : os_exn + Z) (h : list io) :
  In (io_call argv res) h -> In argv (commands h).
Proof.
  induction h as [|ev h IH]; [intros []|].
  intros [->|Hin]; [now left|].
  destruct ev; cbn; auto.
Qed.

End ConvertFacts.

Lemma convert_copies_witness :
  exists content : string,
    In (io_read "test/TG.prob" (inr content))
       (snd (convert_prob_to_dp os_fine "test/TG.prob" "test/TG.dp" []))
    /\ written "test/TG.dp"
         (snd (convert_prob_to_dp os_fine "test/TG.prob" "test/TG.dp" []))
       = content.
Proof.
  destruct (convert_copies os_fine "test/TG.prob" "test/TG.dp")
    as (content & Hs & Hw).
  - reflexivity.
  - exists content. split; [|exact Hw].
    rewrite Hs. cbn. auto.
Defined.

Lemma convert_failures_witness :
  convert_prob_to_dp os_bare "test/TG.prob" "test/TG.dp" []
  = (inl (IOError "test/TG.prob"),
     [io_open "test/TG.prob" "r" (inl (IOError "test/TG.prob"))]).
Proof.
  apply (convert_failures os_bare "test/TG.prob" "test/TG.dp").
  vm_compute. auto.
Defined.
Section ProbFacts.

Variable os : OS.

(** ** Cell 1b: [predict_rna_structure_prob] *)

(** Replaces the run of [convert_prob_to_dp] by what is known of it. *)
Ltac use_convert :=
  match goal with
  | E : convert_prob_to_dp _ _ _ _ = (_, _) |- _ =>
      let res := fresh "res" in
      let rest := fresh "rest" in
      let Hcr := fresh "Hcr" in
      let Hok := fresh "Hok" in
      let Herr := fresh "Herr" in
      destruct (convert_shape _ _ _ _ _ _ E)
        as (res & rest & -> & Hcr & Hok & Herr);
      clear E
  end.

Lemma no_command_in (argv : list string) (res : os_exn + Z) (h : list io) :
  commands h = [] -> ~ In (io_call argv res) h.
Proof. intros Hc Hin. apply in_commands in Hin. now rewrite Hc in Hin. Qed.

(** What is known of a finished run of [convert_prob_to_dp]. *)
Ltac convert_outcome :=
  repeat match goal with
    | H : inr tt = inr tt -> _ |- _ =>
        let Hpr := fresh "Hpr" in
        let content := fresh "content" in
        let Hrd := fresh "Hrd" in
        let Hwr := fresh "Hwr" in
        destruct (H eq_refl) as (Hpr & content & Hrd & Hwr); clear H
    | H : forall e, inl ?o = inl e -> _ |- _ =>
        let Hpr := fresh "Hpr" in
        pose proof (H o eq_refl) as Hpr; clear H
    | H : inl _ = inr tt -> _ |- _ => clear H
    | H : forall e, inr tt = inl e -> _ |- _ => clear H
    end.

(** *** The files of one sequence have different names *)

Lemma string_app_inv_head (a x y : string) :
  (a ++ x)%string = (a ++ y)%string -> x = y.
Proof.
  induction a as [|c a IH]; cbn; intro H; [exact H|].
  injection H as H. now apply IH.
Qed.

Lemma starts_with_slash_app (n s1 s2 : string) :
  starts_with_slash s1 = starts_with_slash s2 ->
  starts_with_slash (n ++ s1) = starts_with_slash (n ++ s2).
Proof. destruct n; cbn; auto. Qed.

Lemma path_join_suffix (d n s1 s2 : string) :
  starts_with_slash s1 = starts_with_slash s2 ->
  path_join d (n ++ s1) = path_join d (n ++ s2) -> s1 = s2.
Proof.
  intros Hs. unfold path_join.
  rewrite (starts_with_slash_app n s1 s2 Hs).
  destruct (starts_with_slash (n ++ s2)).
  - apply string_app_inv_head.
  - destruct ((d =? "")%string || ends_with_slash d); intro H.
    + now apply string_app_inv_head in H; apply string_app_inv_head in H.
    + apply string_app_inv_head in H. cbn in H. injection H as H.
      now apply string_app_inv_head in H.
Qed.

Lemma seq_is_not_dp (dir name : string) :
  (path_join dir (name ++ ".seq") =? path_join dir (name ++ ".dp"))%string
  = false.
Proof.
  apply String.eqb_neq. intro H.
  apply path_join_suffix in H; [discriminate H | reflexivity].
Qed.

(** X17.  In [predict_rna_structure_prob] a non-zero code of [Fold] or
    of [Partition] stops the pipeline without an exception: the function
    returns [None], that command is the last one run, and the only line
    printed is its error message.  The only other command that can
    return a non-zero code in a run is [ProbabilityPlot]. *)
Theorem prob_command_failure (seq name dir : string) :
  let run := predict_rna_structure_prob os seq name dir [] in
  let input_file := path_join dir (name ++ ".seq") in
  let ct_file := path_join dir (name ++ ".ct") in
  let prob_file := path_join dir (name ++ ".pfs") in
  let prob_output_file := path_join dir (name ++ ".prob") in
  let fold := ["Fold"; input_file; ct_file]%string in
  let partition := ["Partition"; input_file; prob_file]%string in
  let plot :=
    ["ProbabilityPlot"; "--text"; prob_file; prob_output_file]%string in
  forall argv c,
    In (io_call argv (inr c)) (snd run) -> c <> 0 ->
    (argv = fold /\ fst run = inr None /\ commands (snd run) = [fold]
     /\ printed (snd run)
        = ["Error running Fold. Check if RNAstructure is properly installed."%string])
    \/ (argv = partition /\ fst run = inr None
        /\ commands (snd run) = [fold; partition]
        /\ printed (snd run)
           = ["Error running Partition. Check if RNAstructure is properly installed."%string])
    \/ argv = plot.
Proof.
  cbv zeta.
  destruct (predict_rna_structure_prob os seq name dir []) as [r tr] eqn:H.
  cbn [fst snd]. intros argv c Hin Hc. os_run H.
  all: try use_convert.
  all: repeat match goal with
         | E : (_ =? 0) = true |- _ => apply Z.eqb_eq in E; subst
         end.
  all: in_history Hin.
  all: try (injection Hin as <- <-; try congruence;
            first [ left; repeat split; reflexivity
                  | right; left; repeat split; reflexivity
                  | right; right; reflexivity ]).
  all: exfalso;
       first [ exact (no_command_in _ _ _ Hcr Hin)
             | apply in_app_iff in Hin; destruct Hin as [Hin|Hin];
               [exact (no_command_in _ _ _ Hcr Hin) | in_history Hin] ].
Qed.

(** X18.  The return code of [ProbabilityPlot] is not checked by the
    caller.  Whenever [predict_rna_structure_prob] has run
    [ProbabilityPlot], it goes on and tries to open the [.prob] file to
    copy it, whatever the code.  With a non-zero code the first line
    printed is the error message of [ProbabilityPlot], and if the run
    then returns, the lines printed are that error message followed by
    the two messages of success. *)
Theorem probability_plot_unchecked (seq name dir : string) :
  let run := predict_rna_structure_prob os seq name dir [] in
  let prob_file := path_join dir (name ++ ".pfs") in
  let dp_file := path_join dir (name ++ ".dp") in
  let prob_output_file := path_join dir (name ++ ".prob") in
  let plot :=
    ["ProbabilityPlot"; "--text"; prob_file; prob_output_file]%string in
  let error :=
    ("Error running ProbabilityPlot with --text. "
     ++ "Check if RNAstructure is properly installed.")%string in
  forall c,
    In (io_call plot (inr c)) (snd run) ->
    (exists res, In (io_open prob_output_file "r" res) (snd run))
    /\ (c <> 0 -> exists more, printed (snd run) = error :: more)
    /\ (c <> 0 -> fst run = inr None ->
        printed (snd run)
        = [ error;
            "Converted .prob to .dp format and saved to: " ++ dp_file;
            "Dot plot file generated: " ++ dp_file ]%string).
Proof.
  cbv zeta.
  destruct (predict_rna_structure_prob os seq name dir []) as [r tr] eqn:H.
  cbn [fst snd]. intros c Hin. os_run H.
  all: try use_convert.
  all: repeat match goal with
         | E : (_ =? 0) = true |- _ => apply Z.eqb_eq in E; subst
         end.
  all: convert_outcome.
  all: in_history Hin.
  all: try (exfalso;
            first [ exact (no_command_in _ _ _ Hcr Hin)
                  | apply in_app_iff in Hin; destruct Hin as [Hin|Hin];
                    [exact (no_command_in _ _ _ Hcr Hin) | in_history Hin] ]).
  all: injection Hin as <-.
  all: split;
       [eexists; cbn; repeat (first [left; reflexivity | right])|].
  all: split; [intro Hc; try congruence; eexists; reflexivity|].
  all: intros Hc Hr; try congruence; try discriminate Hr.
  all: cbn; rewrite printed_app, Hpr; reflexivity.
Qed.

(** X19.  [predict_rna_structure_prob] never returns a structure:
    whenever it returns, it returns [None].  When it has printed
    [Dot plot file generated], the three commands have been run in the
    order [Fold], [Partition], [ProbabilityPlot], the [.prob] file has
    been read, and what the run has written to the [.dp] file is the
    content read from the [.prob] file. *)
Theorem prob_result (seq name dir : string) :
  let run := predict_rna_structure_prob os seq name dir [] in
  let input_file := path_join dir (name ++ ".seq") in
  let ct_file := path_join dir (name ++ ".ct") in
  let prob_file := path_join dir (name ++ ".pfs") in
  let dp_file := path_join dir (name ++ ".dp") in
  let prob_output_file := path_join dir (name ++ ".prob") in
  (forall v, fst run = inr v -> v = None)
  /\ (In ("Dot plot file generated: " ++ dp_file)%string (printed (snd run)) ->
      fst run = inr None
      /\ commands (snd run)
         = [ ["Fold"; input_file; ct_file];
             ["Partition"; input_file; prob_file];
             ["ProbabilityPlot"; "--text"; prob_file; prob_output_file]
           ]%string
      /\ exists content,
           In (io_read prob_output_file (inr content)) (snd run)
           /\ written dp_file (snd run) = content).
Proof.
  cbv zeta.
  destruct (predict_rna_structure_prob os seq name dir []) as [r tr] eqn:H.
  cbn [fst snd]. os_run H.
  all: try use_convert.
  all: convert_outcome.
  all: split; [intros v Hv; try discriminate Hv; now injection Hv as <-|].
  all: intro Hin; cbn in Hin; rewrite ?printed_app, ?Hpr in Hin;
       in_history Hin.
  all: split; [reflexivity|].
  all: split; [cbn; rewrite commands_app, Hcr; reflexivity|].
  all: exists content; split;
       [cbn; do 30 (try right); apply in_app_iff; left; exact Hrd|].
  all: cbn; rewrite seq_is_not_dp, written_app, Hwr; cbn;
       apply string_app_nil_r.
Qed.

(** ** Where the files go *)

(** X20.  The files that [predict_rna_structure] opens are the [.seq]
    and the [.dbn] file built from the output directory and the name with
    [os.path.join].  For a name that does not start with a slash and a
    non-empty directory without a final slash they are
    [output_dir/rna_name.seq] and [output_dir/rna_name.dbn]; for a name
    that starts with a slash the directory is dropped: the files are
    [rna_name.seq] and [rna_name.dbn], outside of the output directory. *)
Theorem structure_files_location (seq name dir : string) :
  let run := predict_rna_structure os seq name dir [] in
  (forall p m res, In (io_open p m res) (snd run) ->
     p = path_join dir (name ++ ".seq") \/ p = path_join dir (name ++ ".dbn"))
  /\ (starts_with_slash name = true ->
      forall p m res, In (io_open p m res) (snd run) ->
        p = (name ++ ".seq")%string \/ p = (name ++ ".dbn")%string)
  /\ (starts_with_slash name = false -> name <> ""%string ->
      dir <> ""%string -> ends_with_slash dir = false ->
      forall p m res, In (io_open p m res) (snd run) ->
        p = (dir ++ "/" ++ name ++ ".seq")%string
        \/ p = (dir ++ "/" ++ name ++ ".dbn")%string).
Proof.
  cbv zeta.
  assert (Hopen : forall p m res,
            In (io_open p m res)
               (snd (predict_rna_structure os seq name dir [])) ->
            p = path_join dir (name ++ ".seq")
            \/ p = path_join dir (name ++ ".dbn")).
  { destruct (predict_rna_structure os seq name dir []) as [r tr] eqn:H.
    cbn [snd]. intros p m res Hin. os_run H; in_history Hin.
    all: injection Hin as <- <- <-; auto. }
  split; [exact Hopen|]. split.
  - intros Hn p m res Hin.
    assert (Hj : forall ext, path_join dir (name ++ ext) = (name ++ ext)%string).
    { intro ext. unfold path_join.
      destruct name as [|c n]; [discriminate Hn|]. cbn in *. now rewrite Hn. }
    destruct (Hopen p m res Hin) as [->| ->]; rewrite Hj; auto.
  - intros Hn Hne Hd Hs p m res Hin.
    assert (Hj : forall ext,
              path_join dir (name ++ ext)
              = (dir ++ "/" ++ name ++ ext)%string).
    { intro ext. unfold path_join.
      destruct name as [|c n]; [congruence|]. cbn in Hn |- *. rewrite Hn, Hs.
      apply String.eqb_neq in Hd. now rewrite Hd. }
    destruct (Hopen p m res Hin) as [->| ->]; rewrite Hj; auto.
Qed.

End ProbFacts.

Lemma prob_command_failure_witness :
  fst (predict_rna_structure_prob os_commands_fail "acgt" "TG" "test" [])
  = inr None.
Proof.
  destruct (prob_command_failure os_commands_fail "acgt" "TG" "test"
              ["Fold"; "test/TG.seq"; "test/TG.ct"]%string 1)
    as [(_ & Hr & _)|[(Hp & _)|Hp]].
  - vm_compute. auto 12.
  - discriminate.
  - exact Hr.
  - discriminate Hp.
  - discriminate Hp.
Defined.

Lemma probability_plot_unchecked_witness :
  exists res,
    In (io_open (path_join "test" ("TG" ++ ".prob")) "r" res)
       (snd (predict_rna_structure_prob os_plot_fails "acgt" "TG" "test" [])).
Proof.
  apply (probability_plot_unchecked os_plot_fails "acgt" "TG" "test" 1).
  vm_compute. auto 20.
Defined.

Lemma prob_result_witness :
  exists content,
    In (io_read (path_join "test" ("TG" ++ ".prob")) (inr content))
       (snd (predict_rna_structure_prob os_fine "acgt" "TG" "test" []))
    /\ written (path_join "test" ("TG" ++ ".dp"))
         (snd (predict_rna_structure_prob os_fine "acgt" "TG" "test" []))
       = content.
Proof.
  destruct (prob_result os_fine "acgt" "TG" "test") as (_ & H).
  destruct H as (_ & _ & content & Hrd & Hw).
  - vm_compute. auto 10.
  - exists content. split; [exact Hrd | exact Hw].
Defined.

Lemma structure_files_location_witness :
  "/tmp/TG.seq"%string = ("/tmp/TG" ++ ".seq")%string
  \/ "/tmp/TG.seq"%string = ("/tmp/TG" ++ ".dbn")%string.
Proof.
  destruct (structure_files_location os_fine "acgt" "/tmp/TG" "test")
    as (_ & Habs & _).
  apply (Habs eq_refl "/tmp/TG.seq"%string "w"%string (inr tt)).
  vm_compute. auto 10.
Defined.
